(** * A model of the speech translation pipeline of [app.py]

    The program is orchestration glue around external services: the
    AssemblyAI HTTP API, the Groq chat-completion API, a translation
    service, gTTS, pydub and the streamlit user interface.  The external
    services are gathered in a record [World] of oracles whose answers may
    depend on everything that happened before; the program itself is
    embedded as Rocq functions in a small monad that threads the log of
    observable events and the local file system, and that distinguishes a
    normal return, an uncaught exception and a loop that is still running
    when the step budget is used up. *)

From Stdlib Require Import ZArith List String Ascii Lia DecimalString
  DecimalZ.
From stdpp Require Import base option list gmap strings.

Set Warnings "-register-all".

Local Open Scope Z_scope.
Local Open Scope string_scope.
Local Open Scope list_scope.

(** ** Values *)

Definition bytes : Type := list Byte.byte.

(** The Python values that [Response.json()] can produce.  [VNone] is
    Python's [None] (a JSON null); numbers are the integers. *)
Inductive value : Type :=
| VNone
| VBool (b : bool)
| VInt (n : Z)
| VStr (s : string)
| VList (l : list value)
| VDict (d : list (string * value)).

(** Python truthiness, as used by [if x:] and [not x]. *)
Definition truthy (v : value) : bool :=
  match v with
  | VNone => false
  | VBool b => b
  | VInt n => negb (n =? 0)%Z
  | VStr s => negb (s =? "")
  | VList l => match l with [] => false | _ => true end
  | VDict d => match d with [] => false | _ => true end
  end.

(** [v == s] for a string literal [s]: only an equal string compares equal. *)
Definition eq_str (v : value) (s : string) : bool :=
  match v with
  | VStr s' => s' =? s
  | _ => false
  end.

(** [v in ["completed", "failed"]] *)
Definition in_completed_failed (v : value) : bool :=
  eq_str v "completed" || eq_str v "failed".

(** First binding of a key in a dictionary. *)
Fixpoint assoc (k : string) (d : list (string * value)) : option value :=
  match d with
  | [] => None
  | (k', v) :: d' => if k' =? k then Some v else assoc k d'
  end.

(** [str(n)] for an integer. *)
Definition str_of_Z (n : Z) : string := NilZero.string_of_int (Z.to_int n).

(** The outcome of a call into a library or a service. *)
Inductive Try (A : Type) : Type :=
| Returns (a : A)
| Raises (e : string).
Arguments Returns {A} a.
Arguments Raises {A} e.

(** ** HTTP *)

Definition Headers : Type := list (string * string).

Inductive Request : Type :=
| POST_data (url : string) (headers : Headers) (data : bytes)
| POST_json (url : string) (headers : Headers) (json : value)
| GET (url : string) (headers : Headers).

(** A response: its status code and its body, [None] when the body is not
    JSON text. *)
Record Response : Type := mkResponse {
  status_code : Z;
  body : option value
}.

(** ** The chat-completion request *)

Record ChatRequest : Type := mkChat {
  messages : list (string * string);
  model : string;
  temperature : Z;
  stream : bool;
  response_format : string
}.

(** ** Observable events *)

Inductive Event : Type :=
| EvHttp (req : Request) (res : Try Response)
| EvGroq (request : ChatRequest) (res : Try string)
| EvTranslate (to_lang text : string) (res : Try string)
| EvTTS (text lang : string) (res : Try bytes)
| EvSleep (seconds : Z)
| StTitle (s : string)
| StInfo (s : string)
| StWrite (args : list value)
| StError (s : string)
| StJson (v : value)
| StAudio (path format : string)
| StWidget (kind label : string) (options : list string)
| FsWrite (path : string) (data : bytes)
| FsRead (path : string)
| FsRemove (path : string).

(** ** The state threaded through the program *)

Record State : Type := mkState {
  trace : list Event;
  fs : gmap string bytes
}.

Definition log (e : Event) (s : State) : State :=
  mkState (trace s ++ [e]) (fs s).

(** ** The program monad *)

Inductive Result (A : Type) : Type :=
| Ret (a : A)
| Exc (e : string)
| OutOfFuel.
Arguments Ret {A} a.
Arguments Exc {A} e.
Arguments OutOfFuel {A}.

Definition M (A : Type) : Type := State -> Result A * State.

#[global] Instance M_ret : MRet M := fun A a s => (Ret a, s).

#[global] Instance M_bind : MBind M := fun A B f m s =>
  match m s with
  | (Ret a, s') => f a s'
  | (Exc e, s') => (Exc e, s')
  | (OutOfFuel, s') => (OutOfFuel, s')
  end.

Definition raise {A : Type} (e : string) : M A := fun s => (Exc e, s).

Definition out_of_fuel {A : Type} : M A := fun s => (OutOfFuel, s).

Definition emit (e : Event) : M unit := fun s => (Ret tt, log e s).

(** [try: m except Exception as e: h e] *)
Definition try_except {A : Type} (m : M A) (h : string -> M A) : M A :=
  fun s =>
    match m s with
    | (Exc e, s') => h e s'
    | r => r
    end.

(** ** The outside world *)

Record World : Type := mkWorld {
  (* st.secrets *)
  ASSEMBLYAI_API_KEY : string;
  (* requests.post / requests.get; the answer may depend on the history *)
  requests_send : list Event -> Request -> Try Response;
  (* client.chat.completions.create(...).choices[0].message.content *)
  groq_create : list Event -> ChatRequest -> Try string;
  (* Translator(to_lang=...).translate(text) *)
  translator_translate : list Event -> string -> string -> Try string;
  (* gTTS(text=..., lang=...) followed by the audio written by save() *)
  gtts_audio : list Event -> string -> string -> Try bytes;
  (* when that raises: what save() had written to the file it opened, None
     when the exception came before the file was opened *)
  gtts_partial : list Event -> string -> string -> option bytes;
  (* json.dumps(RefinedTranscription.model_json_schema(), indent=2) *)
  schema_dump : string;
  (* the JSON parser; None when the text is not JSON *)
  json_loads : string -> option value;
  (* str() of the ValidationError pydantic raises for an input *)
  validation_error : string -> string;
  (* str() of a list or dict *)
  repr_container : value -> string;
  (* the widgets of the page *)
  st_radio : string;
  st_file_uploader : option bytes;
  st_audio_input : option bytes;
  st_selectbox : string
}.

(** ** pydub

    [AudioSegment] is pydub's; the program only goes through this
    interface.  [decode] is [AudioSegment.from_file] applied to the content
    of a file (it raises when the content cannot be decoded), and
    [export_wav] is the content [export(..., format="wav")] writes. *)

Class Pydub : Type := {
  AudioSegment : Type;
  decode : string -> bytes -> Try AudioSegment;
  set_channels : Z -> AudioSegment -> AudioSegment;
  set_frame_rate : Z -> AudioSegment -> AudioSegment;
  export_wav : AudioSegment -> bytes;
  channels : AudioSegment -> Z;
  frame_rate : AudioSegment -> Z
}.

(** ** Reading a WAV header

    The canonical 44-byte RIFF/WAVE header: the channel count is the
    little-endian 16-bit field at offset 22 and the sample rate the
    little-endian 32-bit field at offset 24. *)

Definition byte_to_Z (b : Byte.byte) : Z := Z.of_N (Byte.to_N b).

Definition le16 (b0 b1 : Byte.byte) : Z :=
  byte_to_Z b0 + 256 * byte_to_Z b1.

Definition le32 (b0 b1 b2 b3 : Byte.byte) : Z :=
  le16 b0 b1 + 65536 * le16 b2 b3.

Record WavFormat : Type := mkWavFormat {
  wav_channels : Z;
  wav_sample_rate : Z
}.

Definition wav_header (data : bytes) : option WavFormat :=
  match data with
  | Byte.x52 :: Byte.x49 :: Byte.x46 :: Byte.x46      (* RIFF *)
    :: _ :: _ :: _ :: _
    :: Byte.x57 :: Byte.x41 :: Byte.x56 :: Byte.x45   (* WAVE *)
    :: Byte.x66 :: Byte.x6d :: Byte.x74 :: Byte.x20   (* fmt  *)
    :: _ :: _ :: _ :: _
    :: _ :: _
    :: c0 :: c1
    :: r0 :: r1 :: r2 :: r3
    :: _ =>
      Some (mkWavFormat (le16 c0 c1) (le32 r0 r1 r2 r3))
  | _ => None
  end.

(** The contract of pydub the normalizer relies on. *)
Class PydubSpec (P : Pydub) : Prop := {
  set_channels_mono : forall a, channels (set_channels 1 a) = 1;
  set_frame_rate_rate : forall r a, 0 < r -> frame_rate (set_frame_rate r a) = r;
  set_frame_rate_channels : forall r a,
    channels (set_frame_rate r a) = channels a;
  export_wav_header : forall a,
    0 < channels a < 2 ^ 16 -> 0 < frame_rate a < 2 ^ 32 ->
    wav_header (export_wav a) = Some (mkWavFormat (channels a) (frame_rate a))
}.

(** ** The program *)

Record RefinedTranscription : Type := mkRefined {
  refined_transcription : string
}.

Definition nl : string := String "010" "".

Definition ASSEMBLYAI_ENDPOINT : string :=
  "https://api.assemblyai.com/v2/transcript".

Section Program.

Context {P : Pydub} (w : World).

(** *** Primitive operations *)

(** A call to an external service: the answer is the world's, given the
    history so far, and the call is logged with its answer. *)
Definition service {A : Type} (ask : list Event -> Try A)
    (ev : Try A -> Event) : M A :=
  fun s =>
    let res := ask (trace s) in
    match res with
    | Returns a => (Ret a, log (ev res) s)
    | Raises e => (Exc e, log (ev res) s)
    end.

Definition requests (req : Request) : M Response :=
  service (fun h => requests_send w h req) (EvHttp req).

(** [open(path, "wb").write(data)] and the file pydub's export writes. *)
Definition write_file (path : string) (data : bytes) : M unit :=
  fun s => (Ret tt, mkState (trace s ++ [FsWrite path data])
                            (<[path := data]> (fs s))).

(** [open(path, "rb").read()] *)
Definition read_file (path : string) : M bytes :=
  fun s =>
    match fs s !! path with
    | Some data => (Ret data, log (FsRead path) s)
    | None => (Exc ("FileNotFoundError: " ++ path), s)
    end.

(** [os.remove(path)] *)
Definition os_remove (path : string) : M unit :=
  fun s =>
    match fs s !! path with
    | Some _ => (Ret tt, mkState (trace s ++ [FsRemove path])
                                 (delete path (fs s)))
    | None => (Exc ("FileNotFoundError: " ++ path), s)
    end.

(** [AudioSegment.from_file(path)] *)
Definition from_file (path format : string) : M AudioSegment :=
  data ← read_file path;
  match decode format data with
  | Returns a => mret a
  | Raises e => raise e
  end.

(** [audio.export(path, format="wav")] *)
Definition export (audio : AudioSegment) (path : string) : M unit :=
  write_file path (export_wav audio).

(** [response.json()] *)
Definition json (r : Response) : M value :=
  match body r with
  | Some v => mret v
  | None => raise "JSONDecodeError"
  end.

(** [d.get(key)] for a dict [d]: [None] when the key is absent. *)
Definition field (key : string) (d : list (string * value)) : value :=
  default VNone (assoc key d).

(** [v.get(key)]: only a dict has the method. *)
Definition get (v : value) (key : string) : M value :=
  match v with
  | VDict d => mret (field key d)
  | _ => raise "AttributeError: object has no attribute 'get'"
  end.

(** The text an f-string puts for [{v}]. *)
Definition format_value (v : value) : string :=
  match v with
  | VNone => "None"
  | VBool true => "True"
  | VBool false => "False"
  | VInt n => str_of_Z n
  | VStr s => s
  | _ => repr_container w v
  end.

Definition st_error (msg : string) : M unit := emit (StError msg).
Definition st_info (msg : string) : M unit := emit (StInfo msg).
Definition st_write (args : list value) : M unit := emit (StWrite args).

(** *** preprocess_audio *)

Definition preprocess_audio (audio_data : bytes) : M bytes :=
  write_file "temp_audio.wav" audio_data;;
  audio ← from_file "temp_audio.wav" "wav";
  let audio := set_channels 1 audio in
  let audio := set_frame_rate 16000 audio in
  export audio "processed_audio.wav";;
  read_file "processed_audio.wav".

(** *** transcribe_audio *)

Definition headers : Headers :=
  [("authorization", ASSEMBLYAI_API_KEY w);
   ("content-type", "application/json")].

Definition poll_request (transcript_id : value) : Request :=
  GET (ASSEMBLYAI_ENDPOINT ++ "/" ++ format_value transcript_id) headers.

(** The [while] loop of lines 70-81 followed by line 83; one unit of fuel
    per iteration. *)
Fixpoint poll_loop (fuel : nat) (transcript_id transcript_status : value)
    : M value :=
  if in_completed_failed transcript_status then mret VNone
  else
    match fuel with
    | O => out_of_fuel
    | S fuel' =>
        transcript_result ← requests (poll_request transcript_id);
        if negb (status_code transcript_result =? 200)%Z then
          st_error ("Failed to fetch transcription result. Status: "
                    ++ str_of_Z (status_code transcript_result));;
          mret VNone
        else
          j ← json transcript_result;
          transcript_status ← get j "status";
          if eq_str transcript_status "completed" then
            j' ← json transcript_result;
            get j' "text"
          else if eq_str transcript_status "failed" then
            st_error "Transcription failed.";;
            mret VNone
          else poll_loop fuel' transcript_id transcript_status
    end.

Definition upload_request (audio_file : bytes) : Request :=
  POST_data "https://api.assemblyai.com/v2/upload" headers audio_file.

Definition transcript_request (audio_url : value) : Request :=
  POST_json ASSEMBLYAI_ENDPOINT headers (VDict [("audio_url", audio_url)]).

Definition transcribe_audio (fuel : nat) (audio_file : bytes) : M value :=
  upload_response ← requests (upload_request audio_file);
  if negb (status_code upload_response =? 200)%Z then
    st_error ("Failed to upload audio. Status: "
              ++ str_of_Z (status_code upload_response));;
    mret VNone
  else
    j ← json upload_response;
    audio_url ← get j "upload_url";
    if negb (truthy audio_url) then
      st_error "Upload URL not received from AssemblyAI.";;
      mret VNone
    else
      transcript_response ← requests (transcript_request audio_url);
      if negb (status_code transcript_response =? 200)%Z then
        st_error ("Failed to request transcription. Status: "
                  ++ str_of_Z (status_code transcript_response));;
        mret VNone
      else
        j ← json transcript_response;
        transcript_id ← get j "id";
        if negb (truthy transcript_id) then
          st_error "Transcription ID not received.";;
          mret VNone
        else
          poll_loop fuel transcript_id (VStr "processing").

(** *** refine_transcription_with_groq *)

(** [RefinedTranscription.model_validate_json]: the text must be a JSON
    object whose field [refined_transcription] is a string; other fields are
    ignored. *)
Definition model_validate_json (raw : string) : M RefinedTranscription :=
  match json_loads w raw with
  | Some (VDict d) =>
      match assoc "refined_transcription" d with
      | Some (VStr s) => mret (mkRefined s)
      | _ => raise (validation_error w raw)
      end
  | _ => raise (validation_error w raw)
  end.

Definition system_prompt : string :=
  "You are a medical transcription assistant. Your job is to check the provided transcription for "
  ++ "any inaccuracies, particularly in medical terms. Follow these rules:" ++ nl
  ++ "1. If the transcription is accurate, return it exactly as provided, without any changes." ++ nl
  ++ "2. If there are inaccuracies, correct them while retaining the original phrasing as much as possible." ++ nl
  ++ "3. Do not add any additional content or fabricate information." ++ nl
  ++ "Output the refined transcription in JSON format using the schema below:" ++ nl ++ nl
  ++ schema_dump w.

Definition chat_request (transcription : value) : ChatRequest :=
  {| messages :=
       [("system", system_prompt);
        ("user", "Here is the transcription: " +:+ format_value transcription)];
     model := "llama3-8b-8192";
     temperature := 0;
     stream := false;
     response_format := "json_object" |}.

Definition refine_transcription_with_groq (transcription : value)
    : M (option RefinedTranscription) :=
  try_except
    (raw_response ← service
        (fun h => groq_create w h (chat_request transcription))
        (EvGroq (chat_request transcription));
     st_write [VStr "Raw Response from Groq:"; VStr raw_response];;
     refined ← model_validate_json raw_response;
     mret (Some refined))
    (fun e =>
       st_error ("An error occurred during refinement with Groq: " ++ e);;
       mret None).

(** *** translate_text *)

Definition translate_text (text target_language : string)
    : M (option string) :=
  try_except
    (translated_text ← service
        (fun h => translator_translate w h target_language text)
        (EvTranslate target_language text);
     mret (Some translated_text))
    (fun e =>
       st_error ("An error occurred during translation: " ++ e);;
       mret None).

(** *** text_to_speech *)

(** [gTTS(text=text, lang=lang).save(path)].  The constructor raises before
    any file is opened; [save] opens the file and then fetches the audio, so
    when it raises the file is left with what had been written so far. *)
Definition gtts_save (text lang path : string) : M unit :=
  fun s =>
    let s1 := log (EvTTS text lang (gtts_audio w (trace s) text lang)) s in
    match gtts_audio w (trace s) text lang with
    | Returns mp3 => write_file path mp3 s1
    | Raises e =>
        match gtts_partial w (trace s) text lang with
        | Some written => (Exc e, (write_file path written s1).2)
        | None => (Exc e, s1)
        end
    end.

Definition text_to_speech (text lang : string) : M string :=
  gtts_save text lang "output.mp3";;
  mret "output.mp3".

(** *** main *)

Definition languages : list string := ["es"; "fr"; "de"; "zh"; "en"].

(** Lines 186-195: the body of [if translation:]. *)
Definition synthesis_stage (translation target_language : string) : M unit :=
  st_write [VStr ("**Translation (" ++ target_language ++ "):**")];;
  st_write [VStr translation];;
  st_info "Converting translation to speech...";;
  audio_file ← text_to_speech translation target_language;
  audio ← from_file audio_file "mp3";
  export audio "output.wav";;
  emit (StAudio "output.wav" "audio/wav");;
  os_remove "output.mp3";;
  os_remove "output.wav".

(** Line 185: [if translation:], which has no [else]. *)
Definition after_translation (translation : option string)
    (target_language : string) : M unit :=
  match translation with
  | Some t =>
      if negb (t =? "") then synthesis_stage t target_language else mret tt
  | None => mret tt
  end.

(** Lines 173-197: [if refined_transcription: ... else: ...]. *)
Definition after_refinement (refined : option RefinedTranscription)
    : M unit :=
  match refined with
  | Some r =>
      st_write [VStr "**Refined Transcription:**"];;
      emit (StJson (VDict [("refined_transcription",
                            VStr (refined_transcription r))]));;
      emit (StWidget "selectbox" "Select target language" languages);;
      let target_language := st_selectbox w in
      st_info "Translating refined transcription...";;
      translation ← translate_text (refined_transcription r) target_language;
      after_translation translation target_language
  | None => st_error "Refinement failed."
  end.

(** Lines 167-199: [if transcription: ... else: ...]. *)
Definition after_transcription (transcription : value) : M unit :=
  if truthy transcription then
    st_write [VStr "**Original Transcription:**"];;
    st_write [transcription];;
    st_write [VStr "**Refined Transcription for Medical Terms through Generative AI:**"];;
    st_info "Refining transcription with Groq...";;
    refined ← refine_transcription_with_groq transcription;
    after_refinement refined
  else st_error "Transcription failed.".

(** Lines 146-159: the page title and the two ways to provide audio. *)
Definition intake : M (option bytes) :=
  emit (StTitle "Healthcare Translation Web App with Generative AI");;
  emit (StWidget "radio" "Choose input method:"
          ["Upload audio file"; "Record from microphone"]);;
  let input_choice := st_radio w in
  if input_choice =? "Upload audio file" then
    emit (StWidget "file_uploader" "Upload an audio file" ["wav"; "mp3"]);;
    mret (st_file_uploader w)
  else if input_choice =? "Record from microphone" then
    st_info "Click 'Record' to start recording and 'Stop' to end.";;
    emit (StWidget "audio_input" "Record your message" []);;
    mret (st_audio_input w)
  else mret None.

(** Lines 161-166, then the nested conditionals above. *)
Definition main (fuel : nat) : M unit :=
  audio_data ← intake;
  match audio_data with
  | Some (b :: data) =>
      st_info "Processing audio...";;
      processed_audio ← preprocess_audio (b :: data);
      st_info "Transcribing audio...";;
      transcription ← transcribe_audio fuel processed_audio;
      after_transcription transcription
  | _ => mret tt
  end.

End Program.

(** * Vocabulary of the properties *)

(** A state reached from [s] by logging the events [t], files untouched. *)
Definition logged (s : State) (t : list Event) : State :=
  mkState (trace s ++ t) (fs s).

(** ** The shape of a polling run

    [polls req r t]: the polling loop, asking [req] again and again, ends
    with result [r] after the events [t]. *)

Definition fetch_failure (code : Z) : string :=
  "Failed to fetch transcription result. Status: " ++ str_of_Z code.

Inductive polls (req : Request) : Result value -> list Event -> Prop :=
| polls_out_of_fuel :
    polls req OutOfFuel []
| polls_raises e :
    polls req (Exc e) [EvHttp req (Raises e)]
| polls_not_200 resp :
    status_code resp <> 200 ->
    polls req (Ret VNone)
      [EvHttp req (Returns resp); StError (fetch_failure (status_code resp))]
| polls_no_json resp e :
    status_code resp = 200 ->
    (forall d, body resp <> Some (VDict d)) ->
    polls req (Exc e) [EvHttp req (Returns resp)]
| polls_completed resp d :
    status_code resp = 200 ->
    body resp = Some (VDict d) ->
    eq_str (field "status" d) "completed" = true ->
    polls req (Ret (field "text" d)) [EvHttp req (Returns resp)]
| polls_failed resp d :
    status_code resp = 200 ->
    body resp = Some (VDict d) ->
    eq_str (field "status" d) "failed" = true ->
    polls req (Ret VNone)
      [EvHttp req (Returns resp); StError "Transcription failed."]
| polls_pending resp d r t :
    status_code resp = 200 ->
    body resp = Some (VDict d) ->
    in_completed_failed (field "status" d) = false ->
    polls req r t ->
    polls req r (EvHttp req (Returns resp) :: t).

(** ** The shape of a run of [transcribe_audio] *)

Definition upload_failure (code : Z) : string :=
  "Failed to upload audio. Status: " ++ str_of_Z code.

Definition request_failure (code : Z) : string :=
  "Failed to request transcription. Status: " ++ str_of_Z code.

(** The run from the job-creation request on, given the upload URL. *)
Inductive creates (w : World) (url : value)
    : Result value -> list Event -> Prop :=
| creates_raises e :
    creates w url (Exc e) [EvHttp (transcript_request w url) (Raises e)]
| creates_not_200 resp :
    status_code resp <> 200 ->
    creates w url (Ret VNone)
      [EvHttp (transcript_request w url) (Returns resp);
       StError (request_failure (status_code resp))]
| creates_no_json resp e :
    status_code resp = 200 ->
    (forall d, body resp <> Some (VDict d)) ->
    creates w url (Exc e) [EvHttp (transcript_request w url) (Returns resp)]
| creates_no_id resp d :
    status_code resp = 200 ->
    body resp = Some (VDict d) ->
    truthy (field "id" d) = false ->
    creates w url (Ret VNone)
      [EvHttp (transcript_request w url) (Returns resp);
       StError "Transcription ID not received."]
| creates_polls resp d r t :
    status_code resp = 200 ->
    body resp = Some (VDict d) ->
    truthy (field "id" d) = true ->
    polls (poll_request w (field "id" d)) r t ->
    creates w url r (EvHttp (transcript_request w url) (Returns resp) :: t).

(** The whole run. *)
Inductive transcribes (w : World) (audio : bytes)
    : Result value -> list Event -> Prop :=
| transcribes_raises e :
    transcribes w audio (Exc e) [EvHttp (upload_request w audio) (Raises e)]
| transcribes_not_200 resp :
    status_code resp <> 200 ->
    transcribes w audio (Ret VNone)
      [EvHttp (upload_request w audio) (Returns resp);
       StError (upload_failure (status_code resp))]
| transcribes_no_json resp e :
    status_code resp = 200 ->
    (forall d, body resp <> Some (VDict d)) ->
    transcribes w audio (Exc e) [EvHttp (upload_request w audio) (Returns resp)]
| transcribes_no_url resp d :
    status_code resp = 200 ->
    body resp = Some (VDict d) ->
    truthy (field "upload_url" d) = false ->
    transcribes w audio (Ret VNone)
      [EvHttp (upload_request w audio) (Returns resp);
       StError "Upload URL not received from AssemblyAI."]
| transcribes_creates resp d r t :
    status_code resp = 200 ->
    body resp = Some (VDict d) ->
    truthy (field "upload_url" d) = true ->
    creates w (field "upload_url" d) r t ->
    transcribes w audio r (EvHttp (upload_request w audio) (Returns resp) :: t).

(** ** Events of interest *)

Definition is_poll (e : Event) : bool :=
  match e with
  | EvHttp (GET _ _) _ => true
  | _ => false
  end.

Definition is_sleep (e : Event) : bool :=
  match e with
  | EvSleep _ => true
  | _ => false
  end.

(** The message shown for a call answered with a status other than 200. *)
Definition status_report (req : Request) (code : Z) : string :=
  match req with
  | POST_data _ _ _ => upload_failure code
  | POST_json _ _ _ => request_failure code
  | GET _ _ => fetch_failure code
  end.

(** The [status] field of the body of a response. *)
Definition job_status (resp : Response) : value :=
  match body resp with
  | Some (VDict d) => field "status" d
  | _ => VNone
  end.

(** The [text] field of the body of a response. *)
Definition job_text (resp : Response) : value :=
  match body resp with
  | Some (VDict d) => field "text" d
  | _ => VNone
  end.

(** The answer to a status poll leaves the job unfinished: status 200 and
    a status field that is neither [completed] nor [failed]. *)
Definition pending (resp : Response) : Prop :=
  status_code resp = 200 /\
  exists d, body resp = Some (VDict d) /\
            in_completed_failed (field "status" d) = false.

(** The upload and the job creation both succeed from state [s]: the job
    has identifier [id] and polling starts in state [s1]. *)
Definition job_created (w : World) (audio : bytes) (s : State)
    (id : value) (s1 : State) : Prop :=
  exists up d cr d',
    requests_send w (trace s) (upload_request w audio) = Returns up /\
    status_code up = 200 /\ body up = Some (VDict d) /\
    truthy (field "upload_url" d) = true /\
    requests_send w
      (trace s ++ [EvHttp (upload_request w audio) (Returns up)])
      (transcript_request w (field "upload_url" d)) = Returns cr /\
    status_code cr = 200 /\ body cr = Some (VDict d') /\
    field "id" d' = id /\ truthy id = true /\
    s1 = logged s
           [EvHttp (upload_request w audio) (Returns up);
            EvHttp (transcript_request w (field "upload_url" d)) (Returns cr)].

(** Between two successive polls of a trace there is a sleep. *)
Fixpoint poll_before_sleep (t : list Event) : bool :=
  match t with
  | [] => false
  | e :: t' =>
      if is_sleep e then false
      else if is_poll e then true
      else poll_before_sleep t'
  end.

Fixpoint polls_separated_by_sleep (t : list Event) : bool :=
  match t with
  | [] => true
  | e :: t' =>
      negb (is_poll e && poll_before_sleep t') && polls_separated_by_sleep t'
  end.

(** ** Concrete worlds *)

Fixpoint http_calls (h : list Event) : nat :=
  match h with
  | [] => O
  | EvHttp _ _ :: h' => S (http_calls h')
  | _ :: h' => http_calls h'
  end.

(** The server answers the n-th HTTP call with the n-th response of a
    script, and the connection fails once the script is used up. *)
Definition scripted (script : list Response) (h : list Event)
    (req : Request) : Try Response :=
  match script !! http_calls h with
  | Some resp => Returns resp
  | None => Raises "ConnectionError"
  end.

Definition world_of (http : list Event -> Request -> Try Response)
    (groq : Try string) (translation : Try string) (speech : Try bytes)
    (parse : string -> option value) (upload : option bytes) : World :=
  {| ASSEMBLYAI_API_KEY := "secret";
     requests_send := http;
     groq_create := fun _ _ => groq;
     translator_translate := fun _ _ _ => translation;
     gtts_audio := fun _ _ _ => speech;
     gtts_partial := fun _ _ _ => Some [];
     schema_dump := "{}";
     json_loads := parse;
     validation_error := fun raw => "1 validation error for RefinedTranscription";
     repr_container := fun _ => "[...]";
     st_radio := "Upload audio file";
     st_file_uploader := upload;
     st_audio_input := None;
     st_selectbox := "fr" |}.

Definition http_world (http : list Event -> Request -> Try Response)
    : World :=
  world_of http (Raises "APIConnectionError") (Raises "TranslationError")
    (Raises "gTTSError") (fun _ => None) None.

Definition empty_state : State := mkState [] ∅.

Definition server_error : Response := mkResponse 500 None.

Definition uploaded : Response :=
  mkResponse 200
    (Some (VDict [("upload_url", VStr "https://cdn.assemblyai.com/upload/7")])).

Definition created : Response :=
  mkResponse 200 (Some (VDict [("id", VStr "job7"); ("status", VStr "queued")])).

Definition processing : Response :=
  mkResponse 200
    (Some (VDict [("id", VStr "job7"); ("status", VStr "processing")])).

Definition job_failed : Response :=
  mkResponse 200
    (Some (VDict [("id", VStr "job7"); ("status", VStr "failed")])).

Definition completed (text : value) : Response :=
  mkResponse 200
    (Some (VDict [("id", VStr "job7"); ("status", VStr "completed");
                  ("text", text)])).

Definition no_fields : Response := mkResponse 200 (Some (VDict [])).

(** A server whose job never finishes. *)
Definition stuck_server (h : list Event) (req : Request) : Try Response :=
  match req with
  | POST_data _ _ _ => Returns uploaded
  | POST_json _ _ _ => Returns created
  | GET _ _ => Returns processing
  end.

(** ** The refinement step *)

(** A parsed response matches the schema of [RefinedTranscription]: it is
    a JSON object whose field [refined_transcription] is a string. *)
Definition matches_schema (parsed : option value) : Prop :=
  exists d text,
    parsed = Some (VDict d) /\
    assoc "refined_transcription" d = Some (VStr text).

(** The text of the exception a failed refinement ends with. *)
Definition error_text (w : World) (res : Try string) : string :=
  match res with
  | Raises e => e
  | Returns raw => validation_error w raw
  end.

(** What the step displays of the model's answer before validating it. *)
Definition raw_shown (res : Try string) : list Event :=
  match res with
  | Returns raw => [StWrite [VStr "Raw Response from Groq:"; VStr raw]]
  | Raises _ => []
  end.

(** ** A concrete audio library

    A segment is its channel count, its sample rate and its samples; the
    exporter writes the canonical 44-byte header in front of the samples
    (16-bit PCM).  The decoder takes any non-empty content for 44.1 kHz
    stereo samples. *)

Record Segment : Type := mkSegment {
  seg_channels : Z;
  seg_rate : Z;
  seg_data : bytes
}.

Definition byte_of_Z (z : Z) : Byte.byte :=
  default Byte.x00 (Byte.of_N (Z.to_N (z mod 256))).

Definition enc16 (z : Z) : bytes :=
  [byte_of_Z z; byte_of_Z (z / 256)].

Definition enc32 (z : Z) : bytes :=
  [byte_of_Z z; byte_of_Z (z / 256);
   byte_of_Z (z / 65536); byte_of_Z (z / 16777216)].

Definition riff_header (nchannels rate datalen : Z) : bytes :=
  [Byte.x52; Byte.x49; Byte.x46; Byte.x46] ++ enc32 (36 + datalen)
  ++ [Byte.x57; Byte.x41; Byte.x56; Byte.x45]
  ++ [Byte.x66; Byte.x6d; Byte.x74; Byte.x20] ++ enc32 16
  ++ enc16 1 ++ enc16 nchannels ++ enc32 rate
  ++ enc32 (rate * nchannels * 2) ++ enc16 (nchannels * 2) ++ enc16 16
  ++ [Byte.x64; Byte.x61; Byte.x74; Byte.x61] ++ enc32 datalen.

#[global] Instance plain_pydub : Pydub := {|
  AudioSegment := Segment;
  decode := fun _ data =>
    match data with
    | [] => Raises "CouldntDecodeError"
    | _ => Returns (mkSegment 2 44100 data)
    end;
  set_channels := fun n a => mkSegment n (seg_rate a) (seg_data a);
  set_frame_rate := fun r a => mkSegment (seg_channels a) r (seg_data a);
  export_wav := fun a =>
    riff_header (seg_channels a) (seg_rate a) (Z.of_nat (length (seg_data a)))
    ++ seg_data a;
  channels := seg_channels;
  frame_rate := seg_rate
|}.

(** ** Files and playback *)

(** Events other than a playback and the removal of a file. *)
Definition quiet (e : Event) : bool :=
  match e with
  | StAudio _ _ | FsRemove _ => false
  | _ => true
  end.

(** From [s] to [s1] only quiet events happen and no file disappears. *)
Definition keeps_files (s s1 : State) : Prop :=
  (exists t, trace s1 = trace s ++ t /\ Forall (fun e => quiet e = true) t) /\
  (forall path, is_Some (fs s !! path) -> is_Some (fs s1 !! path)).

(** The events of a synthesis that runs to its end, from the call to gTTS
    to the removal of the two files. *)
Definition synthesis_events {P : Pydub} (text lang : string) (mp3 : bytes)
    (a : AudioSegment) : list Event :=
  [EvTTS text lang (Returns mp3);
   FsWrite "output.mp3" mp3;
   FsRead "output.mp3";
   FsWrite "output.wav" (export_wav a);
   StAudio "output.wav" "audio/wav";
   FsRemove "output.mp3";
   FsRemove "output.wav"].



(** A world where everything succeeds, and one where the transcript comes
    back empty. *)
Definition happy_world : World :=
  world_of
    (scripted [uploaded; created; processing;
               completed (VStr "the patient has high blood pressure")])
    (Returns "refined")
    (Returns "le patient a une pression arterielle elevee")
    (Returns [Byte.x49; Byte.x44; Byte.x33])
    (fun _ => Some (VDict [("refined_transcription",
                            VStr "the patient has high blood pressure")]))
    (Some [Byte.x52; Byte.x49]).

Definition empty_text_world : World :=
  world_of (scripted [uploaded; created; completed (VStr "")])
    (Returns "refined") (Returns "bonjour") (Returns [Byte.x49])
    (fun _ => None) (Some [Byte.x52; Byte.x49]).

(** A computation that plays nothing and removes no file. *)
Definition harmless {A : Type} (m : M A) : Prop :=
  forall s r s', m s = (r, s') -> keeps_files s s'.


(** ** Further vocabulary *)

Definition is_http (e : Event) : bool :=
  match e with
  | EvHttp _ _ => true
  | _ => false
  end.

Definition is_error (e : Event) : bool :=
  match e with
  | StError _ => true
  | _ => false
  end.

Definition request_headers (req : Request) : Headers :=
  match req with
  | POST_data _ h _ | POST_json _ h _ | GET _ h => h
  end.


(** HTTP calls, then at most one error message, which ends a run that
    returns [None]. *)
Definition calls_then_error (r : Result value) (t : list Event) : Prop :=
  exists calls tail,
    t = calls ++ tail /\
    Forall (fun e => is_http e = true) calls /\
    (tail = [] \/ exists msg, tail = [StError msg] /\ r = Ret VNone).

(** A world where a file is uploaded and the server answers by a script. *)
Definition upload_world (script : list Response) : World :=
  world_of (scripted script) (Returns "refined") (Returns "bonjour")
    (Returns [Byte.x49]) (fun _ => None) (Some [Byte.x52; Byte.x49]).

(** An HTTP call carries the API key and the JSON content type. *)
Definition authorized (w : World) (e : Event) : Prop :=
  match e with
  | EvHttp req _ =>
      request_headers req =
        [("authorization", ASSEMBLYAI_API_KEY w);
         ("content-type", "application/json")]
  | _ => True
  end.

(** The outcome of an HTTP call that makes [transcribe_audio] raise [e]: the
    call itself raises [e], or it is answered 200 with a body that is not a
    JSON object. *)
Definition unusable (e : string) (res : Try Response) : Prop :=
  res = Raises e \/
  exists resp, res = Returns resp /\ status_code resp = 200 /\
               forall d, body resp <> Some (VDict d).

Definition is_groq (e : Event) : bool :=
  match e with
  | EvGroq _ _ => true
  | _ => false
  end.

(** What the page displays without involving a file or a service. *)
Definition is_display (e : Event) : bool :=
  match e with
  | StTitle _ | StInfo _ | StWidget _ _ _ => true
  | _ => false
  end.

(** Nothing was provided: no file or recording, or an empty one. *)
Definition no_bytes (o : option bytes) : Prop := o = None \/ o = Some [].

(** What [main] shows from a truthy transcription to the end of the
    translation, when the model answers [raw], validated as [refined], and
    the translator answers [translated]. *)
Definition shown_until_translation (w : World) (transcription : value)
    (raw refined translated : string) : list Event :=
  [StWrite [VStr "**Original Transcription:**"];
   StWrite [transcription];
   StWrite [VStr "**Refined Transcription for Medical Terms through Generative AI:**"];
   StInfo "Refining transcription with Groq...";
   EvGroq (chat_request w transcription) (Returns raw);
   StWrite [VStr "Raw Response from Groq:"; VStr raw];
   StWrite [VStr "**Refined Transcription:**"];
   StJson (VDict [("refined_transcription", VStr refined)]);
   StWidget "selectbox" "Select target language" languages;
   StInfo "Translating refined transcription...";
   EvTranslate (st_selectbox w) refined (Returns translated)].

(** An audio library that decodes nothing. *)
Definition deaf_pydub : Pydub := {|
  AudioSegment := Segment;
  decode := fun _ _ => Raises "CouldntDecodeError";
  set_channels := fun n a => mkSegment n (seg_rate a) (seg_data a);
  set_frame_rate := fun r a => mkSegment (seg_channels a) r (seg_data a);
  export_wav := fun a => seg_data a;
  channels := seg_channels;
  frame_rate := seg_rate
|}.

(** The four file names the program uses. *)
Definition work_files : list string :=
  ["temp_audio.wav"; "processed_audio.wav"; "output.mp3"; "output.wav"].

(** A computation that leaves every file outside [paths] as it was,
    whatever its outcome. *)
Definition touches {A : Type} (paths : list string) (m : M A) : Prop :=
  forall s r s' p, m s = (r, s') -> p ∉ paths -> fs s' !! p = fs s !! p.

(** What [main] does once the audio is normalized. *)
Definition after_preprocessing (w : World) {P : Pydub} (fuel : nat)
    (processed_audio : bytes) : M unit :=
  st_info "Transcribing audio...";;
  transcription ← transcribe_audio w fuel processed_audio;
  after_transcription w transcription.

(** The stage of the pipeline an external call belongs to. *)
Definition stage (e : Event) : option nat :=
  match e with
  | EvHttp _ _ => Some 1%nat
  | EvGroq _ _ => Some 2%nat
  | EvTranslate _ _ _ => Some 3%nat
  | EvTTS _ _ _ => Some 4%nat
  | _ => None
  end.

(** A call of stage [n] may come when the last call was of stage [cur]:
    only the HTTP stage may call again. *)
Definition may_follow (cur n : nat) : bool :=
  ((cur <? n) || ((cur =? 1) && (n =? 1)))%nat.

Fixpoint in_order (cur : nat) (t : list Event) : bool :=
  match t with
  | [] => true
  | e :: t =>
      match stage e with
      | Some n => may_follow cur n && in_order n t
      | None => in_order cur t
      end
  end.

Fixpoint last_stage (cur : nat) (t : list Event) : nat :=
  match t with
  | [] => cur
  | e :: t =>
      match stage e with
      | Some n => last_stage n t
      | None => last_stage cur t
      end
  end.

(** A computation that, started after stage [a], calls the services in
    order and stops at stage [b] at the latest, whatever its outcome. *)
Definition paced {A : Type} (a b : nat) (m : M A) : Prop :=
  forall s r s', m s = (r, s') ->
    exists t, trace s' = trace s ++ t /\
              in_order a t = true /\ (last_stage a t <= b)%nat.

(** ** Stopping at a stage *)

(** An external call of a stage after stage [b]. *)
Definition later_stage (b : nat) (e : Event) : bool :=
  match stage e with
  | Some n => (b <? n)%nat
  | None => false
  end.

(** From [s] to [s'] no service of a stage after [b] is called. *)
Definition stops_at (b : nat) (s s' : State) : Prop :=
  exists t, trace s' = trace s ++ t /\
            Forall (fun e => later_stage b e = false) t.

(** What [main] shows between the transcription and the refinement, and
    between the refinement and the translation. *)
Definition shown_before_refinement (transcription : value) : list Event :=
  [StWrite [VStr "**Original Transcription:**"];
   StWrite [transcription];
   StWrite [VStr "**Refined Transcription for Medical Terms through Generative AI:**"];
   StInfo "Refining transcription with Groq..."].

Definition shown_before_translation (r : RefinedTranscription)
    : list Event :=
  [StWrite [VStr "**Refined Transcription:**"];
   StJson (VDict [("refined_transcription", VStr (refined_transcription r))]);
   StWidget "selectbox" "Select target language" languages;
   StInfo "Translating refined transcription..."].

(** A world where the transcript is "hello" and the model's answer is
    valid, but the translator fails. *)
Definition no_translation_world : World :=
  world_of (scripted [uploaded; created; completed (VStr "hello")])
    (Returns "refined") (Raises "TranslationError") (Returns [Byte.x49])
    (fun _ => Some (VDict [("refined_transcription", VStr "hello")]))
    (Some [Byte.x52; Byte.x49]).

(** * Properties *)

(** ** Runs of the monad *)

Lemma run_bind {A B : Type} (m : M A) (f : A -> M B) (s : State) :
  (m ≫= f) s =
  match m s with
  | (Ret a, s') => f a s'
  | (Exc e, s') => (Exc e, s')
  | (OutOfFuel, s') => (OutOfFuel, s')
  end.
Proof. reflexivity. Qed.

Lemma run_ret {A : Type} (a : A) (s : State) :
  (mret a : M A) s = (Ret a, s).
Proof. reflexivity. Qed.

Lemma run_service {A : Type} (ask : list Event -> Try A)
    (ev : Try A -> Event) (s : State) :
  service ask ev s =
  (match ask (trace s) with Returns a => Ret a | Raises e => Exc e end,
   log (ev (ask (trace s))) s).
Proof. unfold service. destruct (ask (trace s)); reflexivity. Qed.

Lemma run_gtts_save (w : World) (text lang path : string) (s : State) :
  gtts_save w text lang path s =
  match gtts_audio w (trace s) text lang with
  | Returns mp3 =>
      (Ret tt,
       mkState (trace s ++ [EvTTS text lang (Returns mp3); FsWrite path mp3])
               (<[path := mp3]> (fs s)))
  | Raises e =>
      (Exc e,
       match gtts_partial w (trace s) text lang with
       | Some written =>
           mkState (trace s ++ [EvTTS text lang (Raises e);
                                FsWrite path written])
                   (<[path := written]> (fs s))
       | None => log (EvTTS text lang (Raises e)) s
       end)
  end.
Proof.
  unfold gtts_save, write_file, log.
  destruct (gtts_audio w (trace s) text lang);
    [|destruct (gtts_partial w (trace s) text lang)];
    simpl; by rewrite <- ?app_assoc.
Qed.

Lemma logged_nil s : logged s [] = s.
Proof. destruct s; unfold logged; simpl; by rewrite app_nil_r. Qed.

Lemma logged_log s e t : logged (log e s) t = logged s (e :: t).
Proof. unfold logged, log; simpl. by rewrite <- app_assoc. Qed.

Lemma log_logged s e : log e s = logged s [e].
Proof. reflexivity. Qed.

Ltac log_eq :=
  unfold logged, log; simpl; rewrite <- ?app_assoc; simpl; reflexivity.

#[local] Arguments String.append : simpl never.
#[local] Arguments field : simpl never.

(** Unfold the monad operations in a run. *)
Ltac run_in H :=
  repeat (progress
    (cbv [mbind M_bind mret M_ret raise out_of_fuel emit
          st_error st_info st_write] in H;
     simpl in H)).

Ltac run :=
  repeat (progress
    (cbv [mbind M_bind mret M_ret raise out_of_fuel emit
          st_error st_info st_write json get requests];
     simpl)).

Lemma poll_loop_polls (w : World) (fuel : nat) (id st : value)
    (s : State) (r : Result value) (s' : State) :
  in_completed_failed st = false ->
  poll_loop w fuel id st s = (r, s') ->
  exists t, s' = logged s t /\ polls (poll_request w id) r t.
Proof.
  revert st s r s'. induction fuel as [|fuel IH]; intros st s r s' Hst Hrun.
  - simpl in Hrun. rewrite Hst in Hrun. inversion Hrun; subst.
    exists []. rewrite logged_nil. split; [done|constructor].
  - simpl in Hrun. rewrite Hst in Hrun.
    rewrite run_bind in Hrun. unfold requests in Hrun.
    rewrite run_service in Hrun.
    set (req := poll_request w id) in *.
    destruct (requests_send w (trace s) req) as [resp|e] eqn:Hsend.
    2:{ inversion Hrun; subst. exists [EvHttp req (Raises e)].
        split; [done|constructor]. }
    destruct (Z.eqb_spec (status_code resp) 200) as [H200|H200].
    2:{ run_in Hrun. inversion Hrun; subst. eexists.
        split; [|by apply polls_not_200]. log_eq. }
    unfold json, get in Hrun.
    destruct (body resp) as [[| | | | |d]|] eqn:Hbody; run_in Hrun;
      try (inversion Hrun; subst; eexists; split;
           [by rewrite log_logged
           |apply polls_no_json; [done|intros d'; rewrite Hbody; congruence]]).
    fold (field "status" d) (field "text" d) in Hrun.
    destruct (eq_str (field "status" d) "completed") eqn:Hc.
    { inversion Hrun; subst. eexists. split; [by rewrite log_logged|].
      by eapply polls_completed. }
    destruct (eq_str (field "status" d) "failed") eqn:Hf.
    { inversion Hrun; subst. eexists. split; [|by eapply polls_failed].
      log_eq. }
    apply IH in Hrun as (t & -> & Ht).
    2:{ unfold in_completed_failed. by rewrite Hc, Hf. }
    exists (EvHttp req (Returns resp) :: t). split; [by rewrite logged_log|].
    eapply polls_pending; eauto.
    unfold in_completed_failed. by rewrite Hc, Hf.
Qed.

(** ** Runs of [transcribe_audio] *)

Lemma transcribe_audio_transcribes (w : World) (fuel : nat)
    (audio : bytes) (s : State) (r : Result value) (s' : State) :
  transcribe_audio w fuel audio s = (r, s') ->
  exists t, s' = logged s t /\ transcribes w audio r t.
Proof.
  intros Hrun. unfold transcribe_audio in Hrun.
  rewrite run_bind in Hrun. unfold requests in Hrun.
  rewrite run_service in Hrun.
  destruct (requests_send w (trace s) (upload_request w audio))
    as [up|e] eqn:Hup.
  2:{ inversion Hrun; subst. eexists. split; [by rewrite log_logged|].
      constructor. }
  destruct (Z.eqb_spec (status_code up) 200) as [Hup200|Hup200].
  2:{ run_in Hrun. inversion Hrun; subst. eexists.
      split; [|by apply transcribes_not_200]. log_eq. }
  unfold json, get in Hrun.
  destruct (body up) as [[| | | | |d]|] eqn:Hbody; run_in Hrun;
    try (inversion Hrun; subst; eexists; split;
         [by rewrite log_logged
         |apply transcribes_no_json;
          [done|intros d'; rewrite Hbody; congruence]]).
  fold (field "upload_url" d) in Hrun.
  destruct (truthy (field "upload_url" d)) eqn:Hurl; simpl in Hrun.
  2:{ inversion Hrun; subst. eexists.
      split; [|by eapply transcribes_no_url]. log_eq. }
  set (url := field "upload_url" d) in *.
  rewrite run_service in Hrun.
  destruct (requests_send w _ (transcript_request w url)) as [cr|e] eqn:Hcr.
  2:{ inversion Hrun; subst. eexists. split; [log_eq|].
      eapply (transcribes_creates w audio up d); [done..|]. constructor. }
  destruct (Z.eqb_spec (status_code cr) 200) as [Hcr200|Hcr200].
  2:{ run_in Hrun. inversion Hrun; subst. eexists. split; [log_eq|].
      eapply (transcribes_creates w audio up d); [done..|]. by apply creates_not_200. }
  simpl in Hrun.
  destruct (body cr) as [[| | | | |d2]|] eqn:Hbody2; run_in Hrun;
    try (inversion Hrun; subst; eexists; split; [log_eq|];
         eapply (transcribes_creates w audio up d); [done..|];
         apply creates_no_json;
         [done|intros d'; rewrite Hbody2; congruence]).
  fold (field "id" d2) in Hrun.
  destruct (truthy (field "id" d2)) eqn:Hid; simpl in Hrun.
  2:{ inversion Hrun; subst. eexists. split; [log_eq|].
      eapply (transcribes_creates w audio up d); [done..|]. by eapply creates_no_id. }
  apply poll_loop_polls in Hrun as (t & -> & Ht); [|done].
  eexists. split; [|eapply (transcribes_creates w audio up d); [done..|];
                    eapply creates_polls; eauto].
  log_eq.
Qed.

(** ** Locating an HTTP call inside a run *)

(** Split a concrete list of events at a position. *)
Ltac split_trace :=
  repeat match goal with
  | H : [] = ?pre ++ _ :: _ |- _ => destruct pre; discriminate H
  | H : _ :: _ = ?pre ++ _ :: _ |- _ =>
      destruct pre as [|? pre]; simpl in H; simplify_eq
  end.

Lemma polls_at req r t pre req' res post :
  polls req r t ->
  t = pre ++ EvHttp req' res :: post ->
  polls req r (EvHttp req' res :: post).
Proof.
  intros Hp. revert pre. induction Hp; intros pre Ht; split_trace;
    try (econstructor; eauto; fail).
  eapply IHHp; reflexivity.
Qed.

Lemma creates_at w url r t pre req res post :
  creates w url r t ->
  t = pre ++ EvHttp req res :: post ->
  creates w url r (EvHttp req res :: post)
  \/ (exists id, polls (poll_request w id) r (EvHttp req res :: post)).
Proof.
  intros Hc Heq. destruct Hc; split_trace;
    try (left; econstructor; eauto; fail).
  right. eexists. eapply polls_at; eauto.
Qed.

(** An HTTP call of a run is the upload, the job creation or a poll, and the
    rest of the run is the rest of that phase. *)
Lemma transcribes_at w audio r t pre req res post :
  transcribes w audio r t ->
  t = pre ++ EvHttp req res :: post ->
  transcribes w audio r (EvHttp req res :: post)
  \/ (exists url, creates w url r (EvHttp req res :: post))
  \/ (exists id, polls (poll_request w id) r (EvHttp req res :: post)).
Proof.
  intros Ht Heq. destruct Ht; split_trace;
    try (left; econstructor; eauto; fail).
  right.
  match goal with
  | H : creates _ _ _ _ |- _ =>
      destruct (creates_at _ _ _ _ _ _ _ _ H eq_refl); eauto
  end.
Qed.

(** The first event of a polling run that is not cut short is a poll. *)
Lemma polls_head req r e t :
  polls req r (e :: t) -> exists res, e = EvHttp req res.
Proof. inversion 1; subst; eauto. Qed.


(** ** The transcription client *)

Lemma job_status_dict resp x :
  job_status resp = VStr x ->
  exists d, body resp = Some (VDict d) /\ field "status" d = VStr x.
Proof.
  unfold job_status. destruct (body resp) as [[| | | | |d]|]; try done. eauto.
Qed.

(** C1. Whatever HTTP call of [transcribe_audio] (upload, job creation or
    status poll) is answered with a status code other than 200, the run
    ends there: the function returns [None] and the only thing that follows
    the answer is the error message carrying the numeric status code, so no
    further request is issued. *)
Theorem C1_non_200_status_fails w fuel audio s r s' pre req resp post :
  transcribe_audio w fuel audio s = (r, s') ->
  trace s' = trace s ++ pre ++ EvHttp req (Returns resp) :: post ->
  status_code resp <> 200 ->
  r = Ret VNone /\ post = [StError (status_report req (status_code resp))].
Proof.
  intros Hrun Htr Hcode.
  apply transcribe_audio_transcribes in Hrun as (t & -> & Ht).
  simpl in Htr. apply app_inv_head in Htr.
  destruct (transcribes_at _ _ _ _ _ _ _ _ Ht Htr) as [H|[[url H]|[id H]]];
    inversion H; subst; done.
Qed.

Lemma C1_witness :
  status_code server_error <> 200 /\
  Ret VNone = Ret VNone /\
  [StError "Failed to upload audio. Status: 500"] =
  [StError (status_report (upload_request (http_world (scripted [server_error])) [])
              (status_code server_error))].
Proof.
  split; [done|].
  eapply (C1_non_200_status_fails (http_world (scripted [server_error]))
            0 [] empty_state _ _ [] _ server_error _);
    [vm_compute; reflexivity | reflexivity | done].
Defined.

(** C4. Whenever a status poll is answered with the job status [failed],
    [transcribe_audio] ends there: it returns [None] and the only thing
    that follows the answer is the error message, so polling stops. *)
Theorem C4_failed_job_stops w fuel audio s r s' pre url hdrs resp post :
  transcribe_audio w fuel audio s = (r, s') ->
  trace s' = trace s ++ pre ++ EvHttp (GET url hdrs) (Returns resp) :: post ->
  status_code resp = 200 ->
  job_status resp = VStr "failed" ->
  r = Ret VNone /\ post = [StError "Transcription failed."].
Proof.
  intros Hrun Htr Hcode Hst.
  apply job_status_dict in Hst as (d & Hbody & Hst).
  apply transcribe_audio_transcribes in Hrun as (t & -> & Ht).
  simpl in Htr. apply app_inv_head in Htr.
  destruct (transcribes_at _ _ _ _ _ _ _ _ Ht Htr) as [H|[[u H]|[id H]]];
    inversion H; subst; try done.
  - naive_solver.
  - simplify_eq. rewrite Hst in *. done.
  - simplify_eq. rewrite Hst in *. done.
Qed.

Lemma C4_witness :
  job_status job_failed = VStr "failed" /\
  Ret VNone = Ret VNone /\
  [StError "Transcription failed."] = [StError "Transcription failed."].
Proof.
  split; [reflexivity|].
  eapply (C4_failed_job_stops
            (http_world (scripted [uploaded; created; processing; job_failed]))
            5 [] empty_state _ _ [_; _; _] _ _ job_failed _);
    [vm_compute; reflexivity | reflexivity | reflexivity | reflexivity].
Defined.

Lemma transcribe_audio_polling w fuel audio s id s1 :
  job_created w audio s id s1 ->
  transcribe_audio w fuel audio s = poll_loop w fuel id (VStr "processing") s1.
Proof.
  intros (up & d & cr & d' & Hup & Hup200 & Hd & Hurl & Hcr & Hcr200 & Hd'
          & Hid & Hidt & ->).
  unfold transcribe_audio. run.
  rewrite run_service, Hup, Hup200, Hd. run. rewrite Hurl. run.
  rewrite run_service. simpl. rewrite Hcr, Hcr200, Hd'. run.
  rewrite Hid, Hidt. run. f_equal. log_eq.
Qed.

Lemma poll_loop_pending w id :
  (forall h, exists resp,
      requests_send w h (poll_request w id) = Returns resp /\ pending resp) ->
  forall fuel st s,
    in_completed_failed st = false ->
    exists t, poll_loop w fuel id st s = (OutOfFuel, logged s t) /\
              length t = fuel /\ Forall (fun e => is_poll e = true) t.
Proof.
  intros Hw. induction fuel as [|fuel IH]; intros st s Hst.
  - exists []. simpl. rewrite Hst, logged_nil. by repeat split.
  - destruct (Hw (trace s)) as (resp & Hsend & H200 & d & Hbody & Hpend).
    destruct (IH (field "status" d)
                (log (EvHttp (poll_request w id) (Returns resp)) s) Hpend)
      as (t & Hrun & Hlen & Hall).
    exists (EvHttp (poll_request w id) (Returns resp) :: t).
    split; [|split; [simpl; by rewrite Hlen|by constructor]].
    simpl. rewrite Hst. run.
    rewrite run_service, Hsend, H200, Hbody. run.
    pose proof Hpend as Hpend'. unfold in_completed_failed in Hpend'.
    apply orb_false_iff in Hpend' as [-> ->].
    rewrite Hrun. by rewrite logged_log.
Qed.

(** C5. The polling loop has no retry limit and no timeout: once the job
    is created, if every status poll is answered with status 200 and a job
    status that is neither [completed] nor [failed], then whatever the
    number of iterations allowed, [transcribe_audio] is still polling when
    they are used up, having made exactly that many polls and nothing
    else. *)
Theorem C5_polls_forever w audio s id s1 :
  job_created w audio s id s1 ->
  (forall h, exists resp,
      requests_send w h (poll_request w id) = Returns resp /\ pending resp) ->
  forall fuel, exists t,
    transcribe_audio w fuel audio s = (OutOfFuel, logged s1 t) /\
    length t = fuel /\ Forall (fun e => is_poll e = true) t.
Proof.
  intros Hjob Hw fuel.
  rewrite (transcribe_audio_polling _ _ _ _ _ _ Hjob).
  by apply poll_loop_pending.
Qed.

Lemma stuck_job_created :
  job_created (http_world stuck_server) [] empty_state (VStr "job7")
    (logged empty_state
       [EvHttp (upload_request (http_world stuck_server) []) (Returns uploaded);
        EvHttp (transcript_request (http_world stuck_server)
                  (VStr "https://cdn.assemblyai.com/upload/7"))
               (Returns created)]).
Proof. do 4 eexists. repeat split; reflexivity. Qed.

Lemma C5_witness :
  exists t,
    transcribe_audio (http_world stuck_server) 3 [] empty_state =
      (OutOfFuel,
       logged (logged empty_state
         [EvHttp (upload_request (http_world stuck_server) []) (Returns uploaded);
          EvHttp (transcript_request (http_world stuck_server)
                    (VStr "https://cdn.assemblyai.com/upload/7"))
                 (Returns created)]) t) /\
    length t = 3%nat /\ Forall (fun e => is_poll e = true) t.
Proof.
  apply (C5_polls_forever (http_world stuck_server) [] empty_state
           (VStr "job7") _ stuck_job_created).
  intros h. exists processing. split; [reflexivity|].
  split; [reflexivity|]. eexists. split; reflexivity.
Defined.

Lemma polls_no_sleep req r t :
  polls req r t -> Forall (fun e => is_sleep e = false) t.
Proof. induction 1; repeat constructor; done. Qed.

Lemma transcribes_no_sleep w audio r t :
  transcribes w audio r t -> Forall (fun e => is_sleep e = false) t.
Proof.
  destruct 1; repeat constructor; try done.
  match goal with H : creates _ _ _ _ |- _ => destruct H end;
    repeat constructor; try done.
  by eapply polls_no_sleep.
Qed.

(** C8, as the code has it.  [transcribe_audio] never sleeps, and the event
    that follows the answer to a status poll is either the next poll or
    the error message that ends the run: successive polls are issued
    back-to-back. *)
Theorem C8_polls_back_to_back w fuel audio s r s' :
  transcribe_audio w fuel audio s = (r, s') ->
  exists t, trace s' = trace s ++ t /\
    Forall (fun e => is_sleep e = false) t /\
    forall pre url hdrs res e post,
      t = pre ++ EvHttp (GET url hdrs) res :: e :: post ->
      is_poll e = true \/ (exists msg, e = StError msg /\ post = []).
Proof.
  intros Hrun.
  apply transcribe_audio_transcribes in Hrun as (t & -> & Ht).
  exists t. split; [done|]. split; [by eapply transcribes_no_sleep|].
  intros pre url hdrs res e post Heq.
  destruct (transcribes_at _ _ _ _ _ _ _ _ Ht Heq) as [H|[[u H]|[id H]]];
    inversion H; subst; eauto.
  match goal with H : polls _ _ (_ :: _) |- _ =>
    apply polls_head in H as [res' ->] end.
  by left.
Qed.

Lemma C8_witness :
  exists t,
    trace (transcribe_audio
             (http_world (scripted [uploaded; created; processing;
                                    completed (VStr "hello")]))
             5 [] empty_state).2 = trace empty_state ++ t /\
    Forall (fun e => is_sleep e = false) t /\
    forall pre url hdrs res e post,
      t = pre ++ EvHttp (GET url hdrs) res :: e :: post ->
      is_poll e = true \/ (exists msg, e = StError msg /\ post = []).
Proof.
  eapply (C8_polls_back_to_back
            (http_world (scripted [uploaded; created; processing;
                                   completed (VStr "hello")]))
            5 [] empty_state).
  apply surjective_pairing.
Defined.

(** C8 as stated fails: a job that is still processing at the first poll
    and completed at the second is polled twice with no sleep between. *)
Lemma C8_counterexample :
  polls_separated_by_sleep
    (trace (transcribe_audio
              (http_world (scripted [uploaded; created; processing;
                                     completed (VStr "hello")]))
              5 [] empty_state).2) = false.
Proof. vm_compute. reflexivity. Qed.

(** C9. With status 200 everywhere, [transcribe_audio] still fails when a
    body lacks the field the next step needs: without [upload_url] in the
    upload answer the run is the upload and the error message; without
    [id] in the job-creation answer the run is the upload, the job creation
    and the error message.  Either way it returns [None] and no status
    poll is made. *)
Theorem C9_missing_field_fails w fuel audio s up d :
  requests_send w (trace s) (upload_request w audio) = Returns up ->
  status_code up = 200 ->
  body up = Some (VDict d) ->
  (assoc "upload_url" d = None ->
   transcribe_audio w fuel audio s =
     (Ret VNone,
      logged s [EvHttp (upload_request w audio) (Returns up);
                StError "Upload URL not received from AssemblyAI."]))
  /\
  (forall cr d',
     truthy (field "upload_url" d) = true ->
     requests_send w
       (trace s ++ [EvHttp (upload_request w audio) (Returns up)])
       (transcript_request w (field "upload_url" d)) = Returns cr ->
     status_code cr = 200 ->
     body cr = Some (VDict d') ->
     assoc "id" d' = None ->
     transcribe_audio w fuel audio s =
       (Ret VNone,
        logged s [EvHttp (upload_request w audio) (Returns up);
                  EvHttp (transcript_request w (field "upload_url" d))
                         (Returns cr);
                  StError "Transcription ID not received."])).
Proof.
  intros Hup Hup200 Hd. split.
  - intros Hno. unfold transcribe_audio. run.
    rewrite run_service, Hup, Hup200, Hd. run.
    unfold field. rewrite Hno. run. f_equal. log_eq.
  - intros cr d' Hurl Hcr Hcr200 Hd' Hno.
    unfold transcribe_audio. run.
    rewrite run_service, Hup, Hup200, Hd. run. rewrite Hurl. run.
    rewrite run_service. simpl. rewrite Hcr, Hcr200, Hd'. run.
    unfold field at 1. rewrite Hno. run. f_equal. log_eq.
Qed.

Lemma C9_witness :
  transcribe_audio (http_world (scripted [no_fields])) 5 [] empty_state =
    (Ret VNone,
     logged empty_state
       [EvHttp (upload_request (http_world (scripted [no_fields])) [])
               (Returns no_fields);
        StError "Upload URL not received from AssemblyAI."])
  /\
  transcribe_audio (http_world (scripted [uploaded; no_fields])) 5 []
      empty_state =
    (Ret VNone,
     logged empty_state
       [EvHttp (upload_request (http_world (scripted [uploaded; no_fields])) [])
               (Returns uploaded);
        EvHttp (transcript_request (http_world (scripted [uploaded; no_fields]))
                  (VStr "https://cdn.assemblyai.com/upload/7"))
               (Returns no_fields);
        StError "Transcription ID not received."]).
Proof.
  split.
  - apply (proj1 (C9_missing_field_fails
                    (http_world (scripted [no_fields])) 5 []
                    empty_state no_fields [] eq_refl eq_refl eq_refl)).
    reflexivity.
  - apply (proj2 (C9_missing_field_fails
                    (http_world (scripted [uploaded; no_fields]))
                    5 [] empty_state uploaded
                    [("upload_url", VStr "https://cdn.assemblyai.com/upload/7")]
                    eq_refl eq_refl eq_refl) no_fields []); reflexivity.
Defined.

(** ** The refinement step *)

(** C3. The answer of the model is validated against the schema of
    [RefinedTranscription]; when the model call raises, or when the answer
    is not JSON matching the schema, [refine_transcription_with_groq]
    returns [None] after showing an error message that carries the text of
    the underlying error.  The model is called once, and nothing of the
    transcript is returned in place of the refinement. *)
Theorem C3_invalid_response_rejected w transcription s res :
  groq_create w (trace s) (chat_request w transcription) = res ->
  (forall raw, res = Returns raw -> ~ matches_schema (json_loads w raw)) ->
  refine_transcription_with_groq w transcription s =
    (Ret None,
     logged s
       (EvGroq (chat_request w transcription) res :: raw_shown res ++
        [StError ("An error occurred during refinement with Groq: "
                  +:+ error_text w res)])).
Proof.
  intros Hres Hbad.
  unfold refine_transcription_with_groq, try_except. run.
  rewrite run_service, Hres. destruct res as [raw|e]; run.
  2:{ f_equal. log_eq. }
  specialize (Hbad raw eq_refl). unfold model_validate_json.
  destruct (json_loads w raw) as [[| | | | |d]|] eqn:Hparse; run;
    try (f_equal; log_eq).
  destruct (assoc "refined_transcription" d) as [[| | |text| |]|] eqn:Hf; run;
    try (f_equal; log_eq).
  destruct Hbad. by exists d, text.
Qed.

Lemma C3_witness :
  refine_transcription_with_groq
    (world_of (scripted []) (Returns "not json") (Raises "TranslationError")
       (Raises "gTTSError") (fun _ => None) None)
    (VStr "the patient has high blood pressure") empty_state =
  (Ret None,
   logged empty_state
     [EvGroq (chat_request
                (world_of (scripted []) (Returns "not json")
                   (Raises "TranslationError") (Raises "gTTSError")
                   (fun _ => None) None)
                (VStr "the patient has high blood pressure"))
             (Returns "not json");
      StWrite [VStr "Raw Response from Groq:"; VStr "not json"];
      StError "An error occurred during refinement with Groq: 1 validation error for RefinedTranscription"]).
Proof.
  apply (C3_invalid_response_rejected
           (world_of (scripted []) (Returns "not json")
              (Raises "TranslationError") (Raises "gTTSError")
              (fun _ => None) None)
           (VStr "the patient has high blood pressure") empty_state
           (Returns "not json") eq_refl).
  intros raw Hraw (d & text & Hd & _). discriminate Hd.
Defined.

(** ** The pipeline *)

Lemma translate_text_none w text lang s s' :
  translate_text w text lang s = (Ret None, s') ->
  exists e,
    translator_translate w (trace s) lang text = Raises e /\
    s' = logged s
           [EvTranslate lang text (Raises e);
            StError ("An error occurred during translation: " +:+ e)].
Proof.
  unfold translate_text, try_except. run. rewrite run_service.
  destruct (translator_translate w (trace s) lang text) as [t|e]; run;
    intros Hrun; simplify_eq.
  exists e. split; [done|]. log_eq.
Qed.

(** The run of [main] up to the end of the transcription. *)
Lemma main_after_transcription {P : Pydub} w fuel s b data s1 p s2 r s3 :
  intake w s = (Ret (Some (b :: data)), s1) ->
  preprocess_audio (b :: data) (log (StInfo "Processing audio...") s1) =
    (Ret p, s2) ->
  transcribe_audio w fuel p (log (StInfo "Transcribing audio...") s2) =
    (r, s3) ->
  main w fuel s =
    match r with
    | Ret v => after_transcription w v s3
    | Exc e => (Exc e, s3)
    | OutOfFuel => (OutOfFuel, s3)
    end.
Proof.
  intros Hin Hpre Htr. unfold main. rewrite run_bind, Hin.
  rewrite run_bind. unfold st_info at 1, emit at 1.
  rewrite run_bind, Hpre. rewrite run_bind. unfold st_info at 1, emit at 1.
  rewrite run_bind, Htr. by destruct r.
Qed.

Lemma job_text_dict resp d :
  body resp = Some (VDict d) -> job_text resp = field "text" d.
Proof. unfold job_text. by intros ->. Qed.

(** C10. When the job is reported [completed] with a text that is null or
    empty, [transcribe_audio] returns that text, which is falsy: [main]
    shows "Transcription failed." and stops, exactly as after a failed
    transcription; nothing of the later stages runs. *)
Theorem C10_empty_transcript_is_failure {P : Pydub} w fuel s b data s1 p s2
    r s3 pre url hdrs resp post :
  intake w s = (Ret (Some (b :: data)), s1) ->
  preprocess_audio (b :: data) (log (StInfo "Processing audio...") s1) =
    (Ret p, s2) ->
  transcribe_audio w fuel p (log (StInfo "Transcribing audio...") s2) =
    (r, s3) ->
  trace s3 = trace (log (StInfo "Transcribing audio...") s2) ++
             pre ++ EvHttp (GET url hdrs) (Returns resp) :: post ->
  status_code resp = 200 ->
  job_status resp = VStr "completed" ->
  job_text resp = VNone \/ job_text resp = VStr "" ->
  post = [] /\
  r = Ret (job_text resp) /\
  main w fuel s = (Ret tt, log (StError "Transcription failed.") s3).
Proof.
  intros Hin Hpre Hrun Htr Hcode Hst.
  rewrite (main_after_transcription _ _ _ _ _ _ _ _ _ _ Hin Hpre Hrun).
  apply job_status_dict in Hst as (d & Hbody & Hst).
  rewrite (job_text_dict _ _ Hbody) in *.
  apply transcribe_audio_transcribes in Hrun as (t & -> & Ht).
  simpl in Htr. apply app_inv_head in Htr.
  assert (post = [] /\ r = Ret (field "text" d)) as [-> ->].
  { destruct (transcribes_at _ _ _ _ _ _ _ _ Ht Htr) as [H|[[u H]|[id H]]];
      inversion H; subst; try done; simplify_eq; try naive_solver;
      rewrite Hst in *; done. }
  intros Htext. repeat split. unfold after_transcription.
  by destruct Htext as [-> | ->].
Qed.

Lemma C10_witness :
  exists s3,
    main empty_text_world 5 empty_state =
      (Ret tt, log (StError "Transcription failed.") s3).
Proof.
  eexists.
  eapply (proj2 (proj2 (C10_empty_transcript_is_failure empty_text_world 5
                          empty_state _ _ _ _ _ _ _ [_; _] _ _
                          (completed (VStr "")) _
                          _ _ _ _ eq_refl eq_refl (or_intror eq_refl)))).
  Unshelve.
  all: try match goal with |- intake _ _ = _ => vm_compute; reflexivity end.
  all: try match goal with
           | |- preprocess_audio _ _ = _ => vm_compute; reflexivity
           end.
  all: try match goal with
           | |- transcribe_audio _ _ _ _ = _ => vm_compute; reflexivity
           end.
  all: try match goal with |- trace _ = _ => vm_compute; reflexivity end.
Defined.

(** ** The audio normalizer *)

Lemma byte_to_of_Z z : byte_to_Z (byte_of_Z z) = z mod 256.
Proof.
  unfold byte_to_Z, byte_of_Z.
  pose proof (Z.mod_pos_bound z 256 eq_refl) as Hb.
  destruct (Byte.of_N (Z.to_N (z mod 256))) as [b|] eqn:Hof; simpl.
  - apply Byte.to_of_N in Hof. rewrite Hof. lia.
  - apply Byte.of_N_None_iff in Hof. lia.
Qed.

Lemma le16_enc z b0 b1 :
  0 <= z < 2 ^ 16 -> enc16 z = [b0; b1] -> le16 b0 b1 = z.
Proof.
  intros Hz Henc. unfold enc16 in Henc. simplify_eq.
  unfold le16. rewrite !byte_to_of_Z.
  change (2 ^ 16) with 65536 in Hz. Z.div_mod_to_equations. lia.
Qed.

Lemma le32_enc z b0 b1 b2 b3 :
  0 <= z < 2 ^ 32 -> enc32 z = [b0; b1; b2; b3] -> le32 b0 b1 b2 b3 = z.
Proof.
  intros Hz Henc. unfold enc32 in Henc. simplify_eq.
  unfold le32, le16. rewrite !byte_to_of_Z.
  change (2 ^ 32) with 4294967296 in Hz. Z.div_mod_to_equations. lia.
Qed.

Lemma riff_header_read nchannels rate datalen data :
  0 <= nchannels < 2 ^ 16 -> 0 <= rate < 2 ^ 32 ->
  wav_header (riff_header nchannels rate datalen ++ data) =
    Some (mkWavFormat nchannels rate).
Proof.
  intros Hc Hr. unfold riff_header, wav_header. cbn [app enc16 enc32].
  f_equal. f_equal; [by apply le16_enc|by apply le32_enc].
Qed.

Lemma plain_pydub_spec : PydubSpec plain_pydub.
Proof.
  split; try done.
  intros a Hc Hr.
  apply (riff_header_read (seg_channels a) (seg_rate a) _ (seg_data a));
    simpl in *; lia.
Qed.

(** Unfold the file operations of a run without touching the maps. *)
Ltac files :=
  cbv [mbind M_bind mret M_ret raise emit st_error st_info st_write
       write_file read_file os_remove from_file export log];
  cbn [trace fs].

(** C6. Whenever pydub decodes the input, [preprocess_audio] returns the
    WAV export of the segment set to one channel and then to 16 kHz; under
    the contract of pydub its header announces one channel and a sample
    rate of 16000. *)
Theorem C6_preprocess_mono_16k {P : Pydub} {PS : PydubSpec P}
    audio_data s a :
  decode "wav" audio_data = Returns a ->
  exists out s',
    preprocess_audio audio_data s = (Ret out, s') /\
    out = export_wav (set_frame_rate 16000 (set_channels 1 a)) /\
    wav_header out = Some (mkWavFormat 1 16000).
Proof.
  intros Hdec.
  assert (channels (set_frame_rate 16000 (set_channels 1 a)) = 1) as Hc.
  { by rewrite set_frame_rate_channels, set_channels_mono. }
  assert (frame_rate (set_frame_rate 16000 (set_channels 1 a)) = 16000)
    as Hr by (by apply set_frame_rate_rate).
  do 2 eexists. split; [|split; [reflexivity|]].
  - unfold preprocess_audio. files.
    rewrite lookup_insert_eq, Hdec. files.
    rewrite lookup_insert_eq. reflexivity.
  - rewrite export_wav_header; [by rewrite Hc, Hr|rewrite Hc|rewrite Hr]; lia.
Qed.

Lemma C6_witness :
  exists out s',
    preprocess_audio [Byte.x52; Byte.x49] empty_state = (Ret out, s') /\
    out = export_wav (set_frame_rate 16000
                        (set_channels 1
                           (mkSegment 2 44100 [Byte.x52; Byte.x49]))) /\
    wav_header out = Some (mkWavFormat 1 16000).
Proof.
  exact (C6_preprocess_mono_16k (P := plain_pydub) (PS := plain_pydub_spec)
           [Byte.x52; Byte.x49] empty_state
           (mkSegment 2 44100 [Byte.x52; Byte.x49]) eq_refl).
Defined.

(** ** Files and playback *)

Lemma keeps_files_refl s : keeps_files s s.
Proof. split; [|done]. exists []. by rewrite app_nil_r. Qed.

Lemma keeps_files_trans s s1 s2 :
  keeps_files s s1 -> keeps_files s1 s2 -> keeps_files s s2.
Proof.
  intros [(t1 & Ht1 & Hq1) Hf1] [(t2 & Ht2 & Hq2) Hf2]. split; [|eauto].
  exists (t1 ++ t2). rewrite Ht2, Ht1, app_assoc. split; [done|].
  by apply Forall_app.
Qed.

Lemma harmless_ret {A : Type} (a : A) : harmless (mret a).
Proof. intros s r s' [= <- <-]. apply keeps_files_refl. Qed.

Lemma harmless_raise {A : Type} e : harmless (raise e : M A).
Proof. intros s r s' [= <- <-]. apply keeps_files_refl. Qed.

Lemma harmless_out_of_fuel {A : Type} : harmless (out_of_fuel : M A).
Proof. intros s r s' [= <- <-]. apply keeps_files_refl. Qed.

Lemma harmless_bind {A B : Type} (m : M A) (f : A -> M B) :
  harmless m -> (forall a, harmless (f a)) -> harmless (m ≫= f).
Proof.
  intros Hm Hf s r s'. rewrite run_bind.
  destruct (m s) as [[a|e|] s1] eqn:Hrun; intros Hrun'.
  - eapply keeps_files_trans; [by eapply Hm|by eapply Hf].
  - simplify_eq. by eapply Hm.
  - simplify_eq. by eapply Hm.
Qed.

Lemma harmless_try_except {A : Type} (m : M A) (h : string -> M A) :
  harmless m -> (forall e, harmless (h e)) -> harmless (try_except m h).
Proof.
  intros Hm Hh s r s'. unfold try_except.
  destruct (m s) as [[a|e|] s1] eqn:Hrun; intros Hrun'.
  - simplify_eq. by eapply Hm.
  - eapply keeps_files_trans; [by eapply Hm|by eapply Hh].
  - simplify_eq. by eapply Hm.
Qed.

Lemma harmless_emit e : quiet e = true -> harmless (emit e).
Proof.
  intros He s r s' [= <- <-]. split; [|done].
  exists [e]. split; [done|]. by constructor.
Qed.

Lemma harmless_service {A : Type} (ask : list Event -> Try A)
    (ev : Try A -> Event) :
  (forall res, quiet (ev res) = true) -> harmless (service ask ev).
Proof.
  intros He s r s'. rewrite run_service. intros [= <- <-]. split; [|done].
  eexists [_]. split; [done|]. by constructor.
Qed.

Lemma harmless_write_file path data : harmless (write_file path data).
Proof.
  intros s r s' [= <- <-]. split.
  - eexists [_]. split; [done|]. by constructor.
  - intros p Hp. simpl. rewrite lookup_insert_is_Some. 
    destruct (decide (path = p)); auto.
Qed.

Lemma harmless_read_file path : harmless (read_file path).
Proof.
  intros s r s'. unfold read_file.
  destruct (fs s !! path); intros [= <- <-].
  - by apply (harmless_emit (FsRead path) eq_refl s (Ret tt)).
  - apply keeps_files_refl.
Qed.

Create HintDb harmless.
#[local] Hint Resolve harmless_ret harmless_raise harmless_out_of_fuel
  harmless_write_file harmless_read_file : harmless.
#[local] Hint Extern 1 (harmless (emit _)) =>
  apply harmless_emit; reflexivity : harmless.
#[local] Hint Extern 1 (harmless (_ ≫= _)) =>
  apply harmless_bind; [|intros ?] : harmless.
#[local] Hint Extern 1 (harmless (try_except _ _)) =>
  apply harmless_try_except; [|intros ?] : harmless.
#[local] Hint Extern 1 (harmless (service _ _)) =>
  apply harmless_service; intros ?; reflexivity : harmless.
#[local] Hint Extern 2 (harmless (if ?b then _ else _)) =>
  destruct b : harmless.
#[local] Hint Extern 2 (harmless (match ?x with _ => _ end)) =>
  destruct x : harmless.

Ltac harmless :=
  unfold st_error, st_info, st_write, requests, json, get, from_file, export;
  solve [auto 30 with harmless].

















(** * Further properties of the transcription client *)

Lemma polls_calls_then_error req r t :
  polls req r t -> calls_then_error r t.
Proof.
  induction 1 as [| | | | | |resp d r t H200 Hb Hp Hpolls IH].
  - exists [], []. by repeat split; [constructor|left].
  - eexists [_], []. split; [done|]. split; [by repeat constructor|by left].
  - eexists [_], [_]. split; [done|]. split; [by repeat constructor|].
    right. by eexists.
  - eexists [_], []. split; [done|]. split; [by repeat constructor|by left].
  - eexists [_], []. split; [done|]. split; [by repeat constructor|by left].
  - eexists [_], [_]. split; [done|]. split; [by repeat constructor|].
    right. by eexists.
  - destruct IH as (calls & tail & -> & Hcalls & Htail).
    exists (EvHttp req (Returns resp) :: calls), tail.
    split; [done|]. split; [by constructor|done].
Qed.

Lemma calls_then_error_cons r e t :
  is_http e = true -> calls_then_error r t -> calls_then_error r (e :: t).
Proof.
  intros He (calls & tail & -> & Hcalls & Htail).
  exists (e :: calls), tail. split; [done|]. split; [by constructor|done].
Qed.

Lemma transcribes_calls_then_error w audio r t :
  transcribes w audio r t -> calls_then_error r t.
Proof.
  destruct 1 as [| | | |resp d r t H200 Hb Hurl Hc].
  - eexists [_], []. split; [done|]. split; [by repeat constructor|by left].
  - eexists [_], [_]. split; [done|]. split; [by repeat constructor|].
    right. by eexists.
  - eexists [_], []. split; [done|]. split; [by repeat constructor|by left].
  - eexists [_], [_]. split; [done|]. split; [by repeat constructor|].
    right. by eexists.
  - apply calls_then_error_cons; [done|].
    destruct Hc as [| | | |cr d' r t Hcr200 Hb' Hid Hp].
    + eexists [_], []. split; [done|].
      split; [by repeat constructor|by left].
    + eexists [_], [_]. split; [done|]. split; [by repeat constructor|].
      right. by eexists.
    + eexists [_], []. split; [done|].
      split; [by repeat constructor|by left].
    + eexists [_], [_]. split; [done|]. split; [by repeat constructor|].
      right. by eexists.
    + apply calls_then_error_cons; [done|]. by eapply polls_calls_then_error.
Qed.

(** X1. [transcribe_audio] only talks to the HTTP service: its events are
    HTTP calls followed by at most one error message; when there is one,
    it is the last event and the result is [None].  It never reads, writes
    or removes a file. *)
Theorem transcribe_audio_only_http w fuel audio s r s' :
  transcribe_audio w fuel audio s = (r, s') ->
  fs s' = fs s /\
  exists t, trace s' = trace s ++ t /\ calls_then_error r t.
Proof.
  intros Hrun.
  apply transcribe_audio_transcribes in Hrun as (t & -> & Ht).
  split; [done|]. exists t. split; [done|].
  by eapply transcribes_calls_then_error.
Qed.

Lemma transcribe_audio_only_http_witness :
  fs (transcribe_audio (http_world (scripted [uploaded; created; job_failed]))
        5 [] empty_state).2 = fs empty_state /\
  exists t,
    trace (transcribe_audio
             (http_world (scripted [uploaded; created; job_failed]))
             5 [] empty_state).2 = trace empty_state ++ t /\
    calls_then_error
      (transcribe_audio (http_world (scripted [uploaded; created; job_failed]))
         5 [] empty_state).1 t.
Proof.
  apply (transcribe_audio_only_http
           (http_world (scripted [uploaded; created; job_failed]))
           5 [] empty_state).
  apply surjective_pairing.
Defined.

Lemma calls_then_error_last r pre e t :
  calls_then_error r t ->
  t = pre ++ [e] ->
  is_http e = true ->
  Forall (fun e => is_http e = true) pre.
Proof.
  intros (calls & tail & -> & Hcalls & [->|(msg & -> & _)]) Heq He.
  - rewrite app_nil_r in Heq. subst. by apply Forall_app in Hcalls as [? _].
  - apply app_inj_tail in Heq as [_ <-]. done.
Qed.

(** X2. When a status poll is answered 200 with the job status
    [completed], [transcribe_audio] returns the [text] field of that
    answer, whatever it is; the answer is the last event of the run, and
    the run consists of HTTP calls only: no error message is shown. *)
Theorem transcribe_audio_completed w fuel audio s r s' pre url hdrs resp
    post :
  transcribe_audio w fuel audio s = (r, s') ->
  trace s' = trace s ++ pre ++ EvHttp (GET url hdrs) (Returns resp) :: post ->
  status_code resp = 200 ->
  job_status resp = VStr "completed" ->
  r = Ret (job_text resp) /\ post = [] /\
  Forall (fun e => is_http e = true) pre.
Proof.
  intros Hrun Htr Hcode Hst.
  apply job_status_dict in Hst as (d & Hbody & Hst).
  rewrite (job_text_dict _ _ Hbody).
  apply transcribe_audio_transcribes in Hrun as (t & -> & Ht).
  simpl in Htr. apply app_inv_head in Htr.
  assert (r = Ret (field "text" d) /\ post = []) as [-> ->].
  { destruct (transcribes_at _ _ _ _ _ _ _ _ Ht Htr) as [H|[[u H]|[id H]]];
      inversion H; subst; try done; simplify_eq; try naive_solver;
      rewrite Hst in *; done. }
  repeat split.
  eapply calls_then_error_last;
    [by eapply transcribes_calls_then_error|done..].
Qed.

Lemma transcribe_audio_completed_witness :
  Ret (VStr "hello") = Ret (job_text (completed (VStr "hello"))) /\
  @nil Event = [] /\
  Forall (fun e => is_http e = true)
    [EvHttp (upload_request
               (http_world (scripted [uploaded; created; processing;
                                      completed (VStr "hello")])) [])
            (Returns uploaded);
     EvHttp (transcript_request
               (http_world (scripted [uploaded; created; processing;
                                      completed (VStr "hello")]))
               (VStr "https://cdn.assemblyai.com/upload/7"))
            (Returns created);
     EvHttp (poll_request
               (http_world (scripted [uploaded; created; processing;
                                      completed (VStr "hello")]))
               (VStr "job7"))
            (Returns processing)].
Proof.
  eapply (transcribe_audio_completed
            (http_world (scripted [uploaded; created; processing;
                                   completed (VStr "hello")]))
            5 [] empty_state _ _ _ _ _ (completed (VStr "hello")) _);
    [vm_compute; reflexivity | reflexivity | reflexivity | reflexivity].
Defined.

Lemma polls_authorized w id r t :
  polls (poll_request w id) r t -> Forall (authorized w) t.
Proof. induction 1; repeat constructor; done. Qed.

(** X3. Every HTTP request of [transcribe_audio] (upload, job creation and
    each poll) carries the same two headers: the AssemblyAI API key as
    [authorization] and [application/json] as [content-type]. *)
Theorem transcribe_audio_sends_api_key w fuel audio s r s' :
  transcribe_audio w fuel audio s = (r, s') ->
  exists t, trace s' = trace s ++ t /\ Forall (authorized w) t.
Proof.
  intros Hrun.
  apply transcribe_audio_transcribes in Hrun as (t & -> & Ht).
  exists t. split; [done|].
  destruct Ht as [| | | |resp d r t H200 Hb Hurl Hc];
    repeat constructor; try done.
  destruct Hc; repeat constructor; try done.
  by eapply polls_authorized.
Qed.

Lemma transcribe_audio_sends_api_key_witness :
  exists t,
    trace (transcribe_audio
             (http_world (scripted [uploaded; created; processing;
                                    completed (VStr "hello")]))
             5 [] empty_state).2 = trace empty_state ++ t /\
    Forall (authorized
              (http_world (scripted [uploaded; created; processing;
                                     completed (VStr "hello")]))) t.
Proof.
  eapply (transcribe_audio_sends_api_key
            (http_world (scripted [uploaded; created; processing;
                                   completed (VStr "hello")]))
            5 [] empty_state).
  apply surjective_pairing.
Defined.

(** Decompose the membership of an event in an explicit list. *)
Ltac elems H :=
  repeat (apply elem_of_cons in H as [H|H]);
  try (by apply elem_of_nil in H); try discriminate H;
  try (injection H as ? ?; subst).




Lemma polls_raise req e t :
  polls req (Exc e) t ->
  exists pre res,
    t = pre ++ [EvHttp req res] /\
    Forall (fun e => is_http e = true) pre /\ unusable e res.
Proof.
  intros Hp. remember (Exc e) as r eqn:Hr.
  induction Hp as [| | |resp e' H200 Hb| | |resp d r t H200 Hb Hpen Hp IH];
    simplify_eq.
  - exists [], (Raises e). split; [done|]. split; [constructor|by left].
  - exists [], (Returns resp). split; [done|]. split; [constructor|].
    right. by exists resp.
  - destruct (IH eq_refl) as (pre & res & -> & Hpre & Hres).
    exists (EvHttp req (Returns resp) :: pre), res.
    split; [done|]. split; [by constructor|done].
Qed.

Lemma transcribes_raise w audio e t :
  transcribes w audio (Exc e) t ->
  exists pre req res,
    t = pre ++ [EvHttp req res] /\
    Forall (fun e => is_http e = true) pre /\ unusable e res.
Proof.
  inversion 1 as [| |resp e' H200 Hb| |up d r t' H200 Hb Hurl Hc]; subst.
  - eexists [], _, (Raises e). split; [done|]. split; [constructor|by left].
  - eexists [], _, (Returns resp). split; [done|]. split; [constructor|].
    right. by exists resp.
  - inversion Hc as [| |cr e' Hcr Hbc| |cr d' r' t'' Hcr Hbc Hid Hp]; subst.
    + eexists [_], _, (Raises e). split; [done|].
      split; [by repeat constructor|by left].
    + eexists [_], _, (Returns cr). split; [done|].
      split; [by repeat constructor|]. right. by exists cr.
    + apply polls_raise in Hp as (pre & res & -> & Hpre & Hres).
      eexists (_ :: _ :: pre), _, res. split; [done|].
      split; [by repeat constructor|done].
Qed.

(** X5. [transcribe_audio] catches no exception.  When it raises, the run
    consists of HTTP calls only and ends with the call that caused it (the
    call raised, or was answered 200 with a body that is not a JSON
    object); no error message is shown, and [main] ends with the same
    exception without showing "Transcription failed.". *)
Theorem transcription_exception_uncaught {P : Pydub} w fuel s b data s1 p s2
    e s3 :
  intake w s = (Ret (Some (b :: data)), s1) ->
  preprocess_audio (b :: data) (log (StInfo "Processing audio...") s1) =
    (Ret p, s2) ->
  transcribe_audio w fuel p (log (StInfo "Transcribing audio...") s2) =
    (Exc e, s3) ->
  main w fuel s = (Exc e, s3) /\
  exists pre req res,
    trace s3 = trace (log (StInfo "Transcribing audio...") s2) ++
               pre ++ [EvHttp req res] /\
    Forall (fun e => is_http e = true) pre /\ unusable e res.
Proof.
  intros Hin Hpre Hrun.
  split; [by rewrite (main_after_transcription _ _ _ _ _ _ _ _ _ _
                        Hin Hpre Hrun)|].
  apply transcribe_audio_transcribes in Hrun as (t & -> & Ht).
  apply transcribes_raise in Ht as (pre & req & res & -> & Hpre' & Hres).
  by exists pre, req, res.
Qed.

Lemma transcription_exception_uncaught_witness :
  exists s3, main (upload_world [uploaded]) 5 empty_state =
               (Exc "ConnectionError", s3).
Proof.
  eexists.
  eapply (proj1 (transcription_exception_uncaught (upload_world [uploaded]) 5
                   empty_state _ _ _ _ _ _ _ _ _ _)).
  Unshelve.
  all: try match goal with |- intake _ _ = _ => vm_compute; reflexivity end.
  all: try match goal with
           | |- preprocess_audio _ _ = _ => vm_compute; reflexivity
           end.
  all: try match goal with
           | |- transcribe_audio _ _ _ _ = _ => vm_compute; reflexivity
           end.
Defined.

Lemma to_int_not_nil z :
  Z.to_int z <> Decimal.Pos Decimal.Nil /\
  Z.to_int z <> Decimal.Neg Decimal.Nil.
Proof.
  pose proof (DecimalZ.to_of (Z.to_int z)) as E.
  rewrite DecimalZ.of_to in E. rewrite E.
  unfold Decimal.norm, Decimal.unorm.
  destruct (Z.to_int z) as [d|d]; destruct (Decimal.nzhead d);
    split; discriminate.
Qed.

Lemma str_of_Z_inj a b : str_of_Z a = str_of_Z b -> a = b.
Proof.
  unfold str_of_Z. intros H. apply DecimalZ.to_int_inj.
  apply (f_equal NilZero.int_of_string) in H.
  destruct (to_int_not_nil a), (to_int_not_nil b).
  rewrite !NilZero.isi in H by done. by injection H.
Qed.

Lemma append_inj_l (p a b : string) : (p +:+ a = p +:+ b)%string -> a = b.
Proof. induction p as [|c p IH]; simpl; [done|]. intros [= H]. auto. Qed.

(** X6. The message shown for a status code other than 200 identifies the
    code: for a given kind of request, two different codes never give the
    same message. *)
Theorem status_report_identifies_code req c1 c2 :
  status_report req c1 = status_report req c2 -> c1 = c2.
Proof.
  destruct req; simpl;
    unfold upload_failure, request_failure, fetch_failure;
    intros H%append_inj_l; by apply str_of_Z_inj.
Qed.

Lemma status_report_identifies_code_witness : 500 = 500.
Proof.
  exact (status_report_identifies_code (GET "u" []) 500 500 eq_refl).
Defined.

(** * Further properties of the refinement and of the translation *)

(** X7. When the model answers with a JSON object whose field
    [refined_transcription] is a string, [refine_transcription_with_groq]
    returns that string as the refinement, having called the model once and
    displayed the raw answer; no error message is shown. *)
Theorem refine_returns_validated_field w transcription s raw d text :
  groq_create w (trace s) (chat_request w transcription) = Returns raw ->
  json_loads w raw = Some (VDict d) ->
  assoc "refined_transcription" d = Some (VStr text) ->
  refine_transcription_with_groq w transcription s =
    (Ret (Some (mkRefined text)),
     logged s [EvGroq (chat_request w transcription) (Returns raw);
               StWrite [VStr "Raw Response from Groq:"; VStr raw]]).
Proof.
  intros Hres Hparse Hfield.
  unfold refine_transcription_with_groq, try_except. run.
  rewrite run_service, Hres. run. unfold model_validate_json.
  rewrite Hparse, Hfield. run. f_equal. log_eq.
Qed.

Lemma refine_returns_validated_field_witness :
  refine_transcription_with_groq happy_world (VStr "hello") empty_state =
    (Ret (Some (mkRefined "the patient has high blood pressure")),
     logged empty_state
       [EvGroq (chat_request happy_world (VStr "hello")) (Returns "refined");
        StWrite [VStr "Raw Response from Groq:"; VStr "refined"]]).
Proof.
  exact (refine_returns_validated_field happy_world (VStr "hello")
           empty_state "refined" _ _ eq_refl eq_refl eq_refl).
Defined.

Ltac found :=
  eexists; repeat first [apply list_elem_of_here | apply list_elem_of_further].

(** X8. [refine_transcription_with_groq] never raises and never runs out
    of steps: whatever the model and the parser do, it returns, after
    exactly one call to the model, made with the request built from the
    transcription.  It returns [None] exactly when it has shown an error
    message, and it leaves the files untouched. *)
Theorem refine_never_raises w transcription s :
  exists o t,
    refine_transcription_with_groq w transcription s =
      (Ret o,
       logged s
         (EvGroq (chat_request w transcription)
                 (groq_create w (trace s) (chat_request w transcription))
          :: t)) /\
    Forall (fun e => is_groq e = false) t /\
    (o = None <-> exists msg, StError msg ∈ t).
Proof.
  unfold refine_transcription_with_groq, try_except. run.
  rewrite run_service.
  destruct (groq_create w (trace s) (chat_request w transcription))
    as [raw|e]; run.
  2:{ do 2 eexists. split; [f_equal; log_eq|].
      split; [by repeat constructor|]. split; [intros _; found|done]. }
  unfold model_validate_json.
  destruct (json_loads w raw) as [[| | | | |d]|]; run;
    try (do 2 eexists; (split; [f_equal; log_eq|]);
         (split; [by repeat constructor|]);
         split; [intros _; found|done]).
  destruct (assoc "refined_transcription" d) as [[| | |text| |]|]; run;
    try (do 2 eexists; (split; [f_equal; log_eq|]);
         (split; [by repeat constructor|]);
         split; [intros _; found|done]).
  do 2 eexists. split; [f_equal; log_eq|].
  split; [by repeat constructor|].
  split; [done|]. intros (msg & Hin). elems Hin.
Qed.


(** X10. An empty translation is dropped silently: when the translator
    returns the empty string, the pipeline ends normally after the
    translation, with no synthesis and no error message. *)
Theorem empty_translation_is_silent {P : Pydub} w r s :
  translator_translate w
    (trace s ++
     [StWrite [VStr "**Refined Transcription:**"];
      StJson (VDict [("refined_transcription",
                      VStr (refined_transcription r))]);
      StWidget "selectbox" "Select target language" languages;
      StInfo "Translating refined transcription..."])
    (st_selectbox w) (refined_transcription r) = Returns "" ->
  after_refinement w (Some r) s =
    (Ret tt,
     logged s
       [StWrite [VStr "**Refined Transcription:**"];
        StJson (VDict [("refined_transcription",
                        VStr (refined_transcription r))]);
        StWidget "selectbox" "Select target language" languages;
        StInfo "Translating refined transcription...";
        EvTranslate (st_selectbox w) (refined_transcription r)
          (Returns "")]).
Proof.
  intros Htr. unfold after_refinement, translate_text, try_except. run.
  rewrite run_service. simpl. rewrite <- !app_assoc. simpl. rewrite Htr.
  run. f_equal. log_eq.
Qed.

Lemma empty_translation_is_silent_witness :
  after_refinement
    (world_of (scripted []) (Returns "x") (Returns "") (Returns [])
       (fun _ => None) None)
    (Some (mkRefined "hello")) empty_state =
  (Ret tt,
   logged empty_state
     [StWrite [VStr "**Refined Transcription:**"];
      StJson (VDict [("refined_transcription", VStr "hello")]);
      StWidget "selectbox" "Select target language" languages;
      StInfo "Translating refined transcription...";
      EvTranslate "fr" "hello" (Returns "")]).
Proof.
  exact (empty_translation_is_silent (P := plain_pydub)
           (world_of (scripted []) (Returns "x") (Returns "") (Returns [])
              (fun _ => None) None)
           (mkRefined "hello") empty_state eq_refl).
Defined.

(** * Further properties of the synthesis and of [main] *)

(** X11. A failure of gTTS is not caught and nothing is cleaned up: the
    synthesis raises the same exception right after the call and nothing is
    played or removed.  When [save] had opened [output.mp3], the file stays
    on disk with what had been written; when the exception came before the
    file was opened, the files are as before. *)
Theorem synthesis_gtts_failure_uncaught {P : Pydub} w text lang s e :
  gtts_audio w
    (trace s ++
     [StWrite [VStr ("**Translation (" +:+ lang +:+ "):**")];
      StWrite [VStr text];
      StInfo "Converting translation to speech..."])
    text lang = Raises e ->
  exists s',
    synthesis_stage w text lang s = (Exc e, s') /\
    match gtts_partial w
            (trace s ++
             [StWrite [VStr ("**Translation (" +:+ lang +:+ "):**")];
              StWrite [VStr text];
              StInfo "Converting translation to speech..."])
            text lang with
    | Some written =>
        s' = mkState
               (trace s ++
                [StWrite [VStr ("**Translation (" +:+ lang +:+ "):**")];
                 StWrite [VStr text];
                 StInfo "Converting translation to speech...";
                 EvTTS text lang (Raises e);
                 FsWrite "output.mp3" written])
               (<["output.mp3" := written]> (fs s))
    | None =>
        s' = logged s
               [StWrite [VStr ("**Translation (" +:+ lang +:+ "):**")];
                StWrite [VStr text];
                StInfo "Converting translation to speech...";
                EvTTS text lang (Raises e)]
    end.
Proof.
  intros Htts. unfold synthesis_stage, text_to_speech. files.
  rewrite run_gtts_save. cbn [trace fs]. rewrite <- !app_assoc. simpl.
  rewrite Htts. eexists. split; [reflexivity|].
  destruct (gtts_partial w _ text lang); [|log_eq].
  f_equal. by rewrite <- !app_assoc.
Qed.

Lemma synthesis_gtts_failure_uncaught_witness :
  exists s',
    synthesis_stage (http_world (scripted [])) "bonjour" "fr" empty_state =
      (Exc "gTTSError", s') /\
    fs s' !! "output.mp3" = Some [].
Proof.
  destruct (synthesis_gtts_failure_uncaught (P := plain_pydub)
              (http_world (scripted [])) "bonjour" "fr" empty_state
              "gTTSError" eq_refl) as (s' & Hrun & Hs').
  exists s'. split; [exact Hrun|].
  simpl in Hs'. rewrite Hs'. reflexivity.
Defined.

(** X12. When gTTS succeeds but the mp3 cannot be decoded, the synthesis
    raises the decoder's exception, nothing is played and nothing is
    removed: [output.mp3] stays on disk with the synthesized bytes. *)
Theorem synthesis_decode_failure_leaves_mp3 {P : Pydub} w text lang s mp3 e :
  gtts_audio w
    (trace s ++
     [StWrite [VStr ("**Translation (" +:+ lang +:+ "):**")];
      StWrite [VStr text];
      StInfo "Converting translation to speech..."])
    text lang = Returns mp3 ->
  decode "mp3" mp3 = Raises e ->
  synthesis_stage w text lang s =
    (Exc e,
     mkState
       (trace s ++
        [StWrite [VStr ("**Translation (" +:+ lang +:+ "):**")];
         StWrite [VStr text];
         StInfo "Converting translation to speech...";
         EvTTS text lang (Returns mp3);
         FsWrite "output.mp3" mp3;
         FsRead "output.mp3"])
       (<["output.mp3" := mp3]> (fs s))).
Proof.
  intros Htts Hdec. unfold synthesis_stage, text_to_speech. files.
  rewrite run_gtts_save. cbn [trace fs]. rewrite <- !app_assoc. simpl.
  rewrite Htts. files. rewrite lookup_insert_eq, Hdec.
  f_equal. f_equal. by rewrite <- !app_assoc.
Qed.

Lemma synthesis_decode_failure_leaves_mp3_witness :
  synthesis_stage
    (world_of (scripted []) (Returns "x") (Returns "bonjour") (Returns [])
       (fun _ => None) None)
    "bonjour" "fr" empty_state =
  (Exc "CouldntDecodeError",
   mkState
     (trace empty_state ++
      [StWrite [VStr ("**Translation (" +:+ "fr" +:+ "):**")];
       StWrite [VStr "bonjour"];
       StInfo "Converting translation to speech...";
       EvTTS "bonjour" "fr" (Returns []);
       FsWrite "output.mp3" [];
       FsRead "output.mp3"])
     (<["output.mp3" := []]> (fs empty_state))).
Proof.
  exact (synthesis_decode_failure_leaves_mp3 (P := plain_pydub)
           (world_of (scripted []) (Returns "x") (Returns "bonjour")
              (Returns []) (fun _ => None) None)
           "bonjour" "fr" empty_state [] "CouldntDecodeError"
           eq_refl eq_refl).
Defined.

(** X13. With no file uploaded and nothing recorded (or an empty upload
    or recording), whatever the input method chosen, [main] ends normally
    after drawing the page: it writes no file and calls no service. *)
Theorem main_without_audio {P : Pydub} w fuel s :
  no_bytes (st_file_uploader w) ->
  no_bytes (st_audio_input w) ->
  exists t,
    main w fuel s = (Ret tt, logged s t) /\
    Forall (fun e => is_display e = true) t.
Proof.
  intros Hup Hrec. unfold main, intake. run.
  destruct (st_radio w =? "Upload audio file")%string; run.
  { destruct Hup as [-> | ->]; eexists; (split; [f_equal; log_eq|]);
      by repeat constructor. }
  destruct (st_radio w =? "Record from microphone")%string; run.
  { destruct Hrec as [-> | ->]; eexists; (split; [f_equal; log_eq|]);
      by repeat constructor. }
  eexists. split; [f_equal; log_eq|]. by repeat constructor.
Qed.

Lemma main_without_audio_witness :
  exists t,
    main (http_world (scripted [])) 5 empty_state =
      (Ret tt, logged empty_state t) /\
    Forall (fun e => is_display e = true) t.
Proof.
  apply (main_without_audio (P := plain_pydub) (http_world (scripted [])) 5
           empty_state); by left.
Defined.

(** X14. When pydub cannot decode the audio provided, [preprocess_audio]
    raises the decoder's exception after writing the input to
    [temp_audio.wav], which stays on disk; [main] ends with that exception
    before any request is sent. *)
Theorem undecodable_audio_stops_main {P : Pydub} w fuel s b data s1 e :
  intake w s = (Ret (Some (b :: data)), s1) ->
  decode "wav" (b :: data) = Raises e ->
  main w fuel s =
    (Exc e,
     mkState
       (trace s1 ++
        [StInfo "Processing audio...";
         FsWrite "temp_audio.wav" (b :: data);
         FsRead "temp_audio.wav"])
       (<["temp_audio.wav" := b :: data]> (fs s1))).
Proof.
  intros Hin Hdec. unfold main. rewrite run_bind, Hin.
  unfold preprocess_audio. files. rewrite lookup_insert_eq, Hdec.
  f_equal. f_equal. by rewrite <- !app_assoc.
Qed.

Lemma undecodable_audio_stops_main_witness :
  exists s', main (P := deaf_pydub) (upload_world []) 5 empty_state =
               (Exc "CouldntDecodeError", s').
Proof.
  eexists.
  eapply (undecodable_audio_stops_main (P := deaf_pydub) (upload_world []) 5
            empty_state _ _ _ "CouldntDecodeError").
  - vm_compute. reflexivity.
  - reflexivity.
Defined.

(** X15. The stages feed each other.  From a truthy transcription, when
    the model's answer validates, the translator returns a non-empty text
    and gTTS and the decoder succeed, the pipeline ends normally and: the
    model is asked about that transcription; the translator is given the
    validated refinement and the language selected on the page; gTTS is
    given the translation and the same language; the decoded mp3 is what
    is exported to [output.wav]. *)
Theorem pipeline_feeds_stages {P : Pydub} w transcription s raw d refined
    translated mp3 a :
  truthy transcription = true ->
  (forall h, groq_create w h (chat_request w transcription) = Returns raw) ->
  json_loads w raw = Some (VDict d) ->
  assoc "refined_transcription" d = Some (VStr refined) ->
  (forall h, translator_translate w h (st_selectbox w) refined =
             Returns translated) ->
  translated <> "" ->
  (forall h, gtts_audio w h translated (st_selectbox w) = Returns mp3) ->
  decode "mp3" mp3 = Returns a ->
  after_transcription w transcription s =
    (Ret tt,
     mkState
       (trace s ++
        shown_until_translation w transcription raw refined translated ++
        [StWrite [VStr ("**Translation (" +:+ st_selectbox w +:+ "):**")];
         StWrite [VStr translated];
         StInfo "Converting translation to speech..."] ++
        synthesis_events translated (st_selectbox w) mp3 a)
       (delete "output.wav"
          (delete "output.mp3"
             (<["output.wav" := export_wav a]>
                (<["output.mp3" := mp3]> (fs s)))))).
Proof.
  intros Hv Hgroq Hparse Hfield Htr Hne Htts Hdec.
  unfold after_transcription. rewrite Hv.
  unfold refine_transcription_with_groq, try_except, model_validate_json.
  files. rewrite run_service, Hgroq. files. rewrite Hparse, Hfield. files.
  unfold after_refinement, translate_text, try_except. files.
  rewrite run_service, Htr. files. unfold after_translation.
  apply String.eqb_neq in Hne. rewrite Hne. simpl.
  unfold synthesis_stage, text_to_speech. files.
  rewrite run_gtts_save, Htts. files.
  rewrite lookup_insert_eq, Hdec. files.
  rewrite lookup_insert_ne by done. rewrite lookup_insert_eq. files.
  rewrite lookup_delete_ne by done. rewrite lookup_insert_eq.
  f_equal. f_equal. rewrite <- !app_assoc. reflexivity.
Qed.

Lemma pipeline_feeds_stages_witness :
  exists s',
    after_transcription happy_world (VStr "hello") empty_state = (Ret tt, s')
    /\ fs s' !! "output.mp3" = None.
Proof.
  eexists. split.
  - apply (pipeline_feeds_stages (P := plain_pydub) happy_world (VStr "hello")
             empty_state "refined"
             [("refined_transcription",
               VStr "the patient has high blood pressure")]
             "the patient has high blood pressure"
             "le patient a une pression arterielle elevee"
             [Byte.x49; Byte.x44; Byte.x33]
             (mkSegment 2 44100 [Byte.x49; Byte.x44; Byte.x33]));
      try reflexivity; try (intros h; reflexivity); discriminate.
  - reflexivity.
Defined.

(** * The files of the pipeline *)

Lemma touches_ret {A : Type} ps (a : A) : touches ps (mret a).
Proof. by intros s r s' p [= <- <-]. Qed.

Lemma touches_raise {A : Type} ps e : touches ps (raise e : M A).
Proof. by intros s r s' p [= <- <-]. Qed.

Lemma touches_emit ps e : touches ps (emit e).
Proof. by intros s r s' p [= <- <-]. Qed.

Lemma touches_service {A : Type} ps (ask : list Event -> Try A) ev :
  touches ps (service ask ev).
Proof. intros s r s' p. rewrite run_service. by intros [= <- <-]. Qed.

Lemma touches_read_file ps path : touches ps (read_file path).
Proof.
  intros s r s' p. unfold read_file.
  by destruct (fs s !! path); intros [= <- <-].
Qed.

Lemma touches_write_file ps path data :
  path ∈ ps -> touches ps (write_file path data).
Proof.
  intros Hin s r s' p [= <- <-] Hp. simpl.
  apply lookup_insert_ne. by intros ->.
Qed.

Lemma touches_os_remove ps path : path ∈ ps -> touches ps (os_remove path).
Proof.
  intros Hin s r s' p. unfold os_remove.
  destruct (fs s !! path); intros [= <- <-] Hp; [|done].
  simpl. apply lookup_delete_ne. by intros ->.
Qed.

Lemma touches_gtts_save ps w text lang path :
  path ∈ ps -> touches ps (gtts_save w text lang path).
Proof.
  intros Hin s r s' p. rewrite run_gtts_save.
  destruct (gtts_audio w _ text lang);
    [|destruct (gtts_partial w _ text lang)];
    intros [= <- <-] Hp; simpl; try done;
    apply lookup_insert_ne; by intros ->.
Qed.

Lemma touches_bind {A B : Type} ps (m : M A) (f : A -> M B) :
  touches ps m -> (forall a, touches ps (f a)) -> touches ps (m ≫= f).
Proof.
  intros Hm Hf s r s' p. rewrite run_bind.
  destruct (m s) as [[a|e|] s1] eqn:Hrun; intros Hrun' Hp.
  - rewrite (Hf _ _ _ _ _ Hrun' Hp). by eapply Hm.
  - simplify_eq. by eapply Hm.
  - simplify_eq. by eapply Hm.
Qed.

Lemma touches_try_except {A : Type} ps (m : M A) (h : string -> M A) :
  touches ps m -> (forall e, touches ps (h e)) -> touches ps (try_except m h).
Proof.
  intros Hm Hh s r s' p. unfold try_except.
  destruct (m s) as [[a|e|] s1] eqn:Hrun; intros Hrun' Hp.
  - simplify_eq. by eapply Hm.
  - rewrite (Hh _ _ _ _ _ Hrun' Hp). by eapply Hm.
  - simplify_eq. by eapply Hm.
Qed.

Lemma touches_transcribe_audio ps w fuel audio :
  touches ps (transcribe_audio w fuel audio).
Proof.
  intros s r s' p Hrun _.
  by apply transcribe_audio_transcribes in Hrun as (t & -> & _).
Qed.

Create HintDb touches.
#[local] Hint Resolve touches_ret touches_raise touches_emit touches_service
  touches_read_file touches_transcribe_audio : touches.
#[local] Hint Extern 1 (touches _ (write_file _ _)) =>
  apply touches_write_file;
  repeat first [apply list_elem_of_here | apply list_elem_of_further]
  : touches.
#[local] Hint Extern 1 (touches _ (gtts_save _ _ _ _)) =>
  apply touches_gtts_save;
  repeat first [apply list_elem_of_here | apply list_elem_of_further]
  : touches.
#[local] Hint Extern 1 (touches _ (os_remove _)) =>
  apply touches_os_remove;
  repeat first [apply list_elem_of_here | apply list_elem_of_further]
  : touches.
#[local] Hint Extern 1 (touches _ (_ ≫= _)) =>
  apply touches_bind; [|intros ?] : touches.
#[local] Hint Extern 1 (touches _ (try_except _ _)) =>
  apply touches_try_except; [|intros ?] : touches.
#[local] Hint Extern 2 (touches _ (if ?b then _ else _)) =>
  destruct b : touches.
#[local] Hint Extern 2 (touches _ (match ?x with _ => _ end)) =>
  destruct x : touches.

Ltac touches :=
  unfold st_error, st_info, st_write, requests, json, get, from_file, export;
  solve [auto 40 with touches].

Lemma touches_after_transcription {P : Pydub} w v :
  touches ["output.mp3"; "output.wav"] (after_transcription w v).
Proof.
  unfold after_transcription, after_refinement, after_translation,
    refine_transcription_with_groq, model_validate_json, translate_text,
    synthesis_stage, text_to_speech.
  touches.
Qed.

Lemma touches_after_preprocessing {P : Pydub} w fuel p :
  touches ["output.mp3"; "output.wav"] (after_preprocessing w fuel p).
Proof.
  pose proof (touches_after_transcription w).
  unfold after_preprocessing. touches.
Qed.

Lemma touches_more {A : Type} ps qs (m : M A) :
  (forall p, p ∈ ps -> p ∈ qs) -> touches ps m -> touches qs m.
Proof. intros Hsub Hm s r s' p Hrun Hp. eapply Hm; eauto. Qed.

Lemma main_after_preprocessing {P : Pydub} w fuel s b data s1 p s2 :
  intake w s = (Ret (Some (b :: data)), s1) ->
  preprocess_audio (b :: data) (log (StInfo "Processing audio...") s1) =
    (Ret p, s2) ->
  main w fuel s = after_preprocessing w fuel p s2.
Proof.
  intros Hin Hpre. unfold main. rewrite run_bind, Hin.
  rewrite run_bind. unfold st_info at 1, emit at 1.
  by rewrite run_bind, Hpre.
Qed.

(** X16. Whatever its outcome (normal end, exception, or still polling),
    [main] leaves every file other than [temp_audio.wav],
    [processed_audio.wav], [output.mp3] and [output.wav] exactly as it
    was. *)
Theorem main_touches_only_work_files {P : Pydub} w fuel s r s' p :
  main w fuel s = (r, s') ->
  p ∉ work_files ->
  fs s' !! p = fs s !! p.
Proof.
  revert s r s' p. change (touches work_files (main w fuel)).
  pose proof (touches_after_transcription w) as Hafter.
  assert (forall v, touches work_files (after_transcription w v)) as Hafter'.
  { intros v. eapply touches_more; [|apply Hafter].
    intros p. unfold work_files. rewrite !elem_of_cons. tauto. }
  unfold main, intake, preprocess_audio. touches.
Qed.

Lemma main_touches_only_work_files_witness :
  fs (main happy_world 5 (mkState [] {["notes.txt" := [Byte.x41]]})).2
    !! "notes.txt" = Some [Byte.x41].
Proof.
  rewrite (main_touches_only_work_files (P := plain_pydub) happy_world 5
             (mkState [] {["notes.txt" := [Byte.x41]]}) _ _ "notes.txt"
             (surjective_pairing _)).
  - reflexivity.
  - unfold work_files. rewrite !not_elem_of_cons.
    repeat split; try done. apply not_elem_of_nil.
Defined.

(** X17. The two temporary files of the normalizer are never cleaned up:
    once [preprocess_audio] has returned, whatever the outcome of the rest of
    [main], [temp_audio.wav] still holds the raw input and
    [processed_audio.wav] the normalized audio at the end. *)
Theorem temp_files_never_removed {P : Pydub} w fuel s b data s1 p s2 r s' :
  intake w s = (Ret (Some (b :: data)), s1) ->
  preprocess_audio (b :: data) (log (StInfo "Processing audio...") s1) =
    (Ret p, s2) ->
  main w fuel s = (r, s') ->
  fs s' !! "temp_audio.wav" = Some (b :: data) /\
  fs s' !! "processed_audio.wav" = Some p.
Proof.
  intros Hin Hpre Hrun.
  rewrite (main_after_preprocessing _ _ _ _ _ _ _ _ Hin Hpre) in Hrun.
  assert (forall q, q ∉ ["output.mp3"; "output.wav"] ->
                    fs s' !! q = fs s2 !! q) as Hkeep.
  { intros q. by eapply touches_after_preprocessing. }
  rewrite !Hkeep
    by (rewrite !not_elem_of_cons; repeat split; try done;
        apply not_elem_of_nil).
  clear Hkeep Hrun. unfold preprocess_audio in Hpre.
  cbv [mbind M_bind mret M_ret raise write_file read_file from_file export
       log] in Hpre.
  cbn [trace fs] in Hpre. rewrite lookup_insert_eq in Hpre.
  destruct (decode "wav" (b :: data)) as [a|e]; [|done].
  cbn [trace fs] in Hpre. rewrite lookup_insert_eq in Hpre.
  injection Hpre as <- <-. cbn [fs].
  rewrite lookup_insert_ne by done. by rewrite !lookup_insert_eq.
Qed.

Lemma temp_files_never_removed_witness :
  exists p,
    fs (main happy_world 5 empty_state).2 !! "temp_audio.wav" =
      Some [Byte.x52; Byte.x49] /\
    fs (main happy_world 5 empty_state).2 !! "processed_audio.wav" = Some p.
Proof.
  eexists.
  eapply (temp_files_never_removed (P := plain_pydub) happy_world 5
            empty_state Byte.x52 [Byte.x49]).
  - vm_compute. reflexivity.
  - vm_compute. reflexivity.
  - apply surjective_pairing.
Defined.

(** * The order of the stages *)

Lemma may_follow_le cur n : may_follow cur n = true -> (cur <= n)%nat.
Proof.
  unfold may_follow. intros H.
  apply orb_true_iff in H as [H|H].
  - apply Nat.ltb_lt in H. lia.
  - apply andb_true_iff in H as [H1 H2].
    apply Nat.eqb_eq in H1, H2. lia.
Qed.

Lemma may_follow_mono c b n :
  (c <= b)%nat -> may_follow b n = true -> may_follow c n = true.
Proof.
  unfold may_follow. intros Hle H.
  apply orb_true_iff in H as [H|H].
  - apply Nat.ltb_lt in H. apply orb_true_iff. left. apply Nat.ltb_lt. lia.
  - apply andb_true_iff in H as [H1 H2].
    apply Nat.eqb_eq in H1, H2. subst.
    destruct c as [|[|c]]; [done|done|lia].
Qed.

Lemma in_order_mono t c b :
  (c <= b)%nat -> in_order b t = true ->
  in_order c t = true /\ (last_stage c t <= last_stage b t)%nat.
Proof.
  revert c b. induction t as [|e t IH]; intros c b Hle H; simpl in *.
  - done.
  - destruct (stage e) as [n|]; [|by apply IH].
    apply andb_true_iff in H as [H1 H2].
    by rewrite (may_follow_mono c b n), H2.
Qed.

Lemma last_stage_ge t a : in_order a t = true -> (a <= last_stage a t)%nat.
Proof.
  revert a. induction t as [|e t IH]; intros a H; simpl in *; [done|].
  destruct (stage e) as [n|]; [|by apply IH].
  apply andb_true_iff in H as [H1 H2].
  apply may_follow_le in H1. apply IH in H2. lia.
Qed.

Lemma in_order_app t1 t2 a :
  in_order a t1 = true ->
  in_order (last_stage a t1) t2 = true ->
  in_order a (t1 ++ t2) = true /\
  last_stage a (t1 ++ t2) = last_stage (last_stage a t1) t2.
Proof.
  revert a. induction t1 as [|e t1 IH]; intros a H1 H2; simpl in *; [done|].
  destruct (stage e) as [n|]; [|by apply IH].
  apply andb_true_iff in H1 as [Hn H1].
  rewrite Hn. simpl. by apply IH.
Qed.

Lemma paced_weaken {A : Type} a' b' a b (m : M A) :
  (a' <= a)%nat -> (b <= b')%nat -> paced a b m -> paced a' b' m.
Proof.
  intros Ha Hb Hm s r s' Hrun.
  destruct (Hm _ _ _ Hrun) as (t & Ht & Ho & Hl).
  destruct (in_order_mono t a' a Ha Ho) as [Ho' Hl'].
  exists t. repeat split; [done|done|lia].
Qed.

Lemma paced_ret {A : Type} a (x : A) : paced a a (mret x).
Proof.
  intros s r s' [= <- <-]. exists []. by rewrite app_nil_r.
Qed.

Lemma paced_raise {A : Type} a e : paced a a (raise e : M A).
Proof.
  intros s r s' [= <- <-]. exists []. by rewrite app_nil_r.
Qed.

Lemma paced_emit a e : stage e = None -> paced a a (emit e).
Proof.
  intros He s r s' [= <- <-]. exists [e]. simpl. by rewrite He.
Qed.

Lemma paced_service {A : Type} a n (ask : list Event -> Try A) ev :
  (forall res, stage (ev res) = Some n) ->
  may_follow a n = true ->
  paced a n (service ask ev).
Proof.
  intros Hev Hn s r s'. rewrite run_service. intros [= <- <-].
  eexists [_]. simpl. by rewrite Hev, Hn.
Qed.

Lemma paced_write_file a path data : paced a a (write_file path data).
Proof. intros s r s' [= <- <-]. by eexists [_]. Qed.

Lemma paced_read_file a path : paced a a (read_file path).
Proof.
  intros s r s'. unfold read_file.
  destruct (fs s !! path); intros [= <- <-].
  - by eexists [_].
  - exists []. by rewrite app_nil_r.
Qed.

Lemma paced_os_remove a path : paced a a (os_remove path).
Proof.
  intros s r s'. unfold os_remove.
  destruct (fs s !! path); intros [= <- <-].
  - by eexists [_].
  - exists []. by rewrite app_nil_r.
Qed.

Lemma paced_gtts_save w a text lang path :
  may_follow a 4 = true -> paced a 4 (gtts_save w text lang path).
Proof.
  intros Hn s r s'. rewrite run_gtts_save.
  destruct (gtts_audio w _ text lang);
    [|destruct (gtts_partial w _ text lang)];
    intros [= <- <-]; eexists; (split; [reflexivity|]);
    cbn [in_order last_stage stage]; by rewrite Hn.
Qed.

Lemma paced_bind {A B : Type} a b c (m : M A) (f : A -> M B) :
  paced a b m -> (forall x, paced b c (f x)) -> (b <= c)%nat ->
  paced a c (m ≫= f).
Proof.
  intros Hm Hf Hbc s r s'. rewrite run_bind.
  destruct (m s) as [[x|e|] s1] eqn:Hrun;
    destruct (Hm _ _ _ Hrun) as (t1 & Ht1 & Ho1 & Hl1); intros Hrun'.
  - destruct (Hf _ _ _ _ Hrun') as (t2 & Ht2 & Ho2 & Hl2).
    destruct (in_order_mono t2 _ _ Hl1 Ho2) as [Ho2' Hl2'].
    destruct (in_order_app t1 t2 a Ho1 Ho2') as [Ho Hl].
    exists (t1 ++ t2). rewrite Ht2, Ht1, app_assoc.
    repeat split; [done|lia].
  - simplify_eq. exists t1. repeat split; [done|done|lia].
  - simplify_eq. exists t1. repeat split; [done|done|lia].
Qed.

Lemma paced_try_except {A : Type} a b c (m : M A) (h : string -> M A) :
  paced a b m -> (forall e, paced b c (h e)) -> (b <= c)%nat ->
  paced a c (try_except m h).
Proof.
  intros Hm Hh Hbc s r s'. unfold try_except.
  destruct (m s) as [[x|e|] s1] eqn:Hrun;
    destruct (Hm _ _ _ Hrun) as (t1 & Ht1 & Ho1 & Hl1); intros Hrun'.
  - simplify_eq. exists t1. repeat split; [done|done|lia].
  - destruct (Hh _ _ _ _ Hrun') as (t2 & Ht2 & Ho2 & Hl2).
    destruct (in_order_mono t2 _ _ Hl1 Ho2) as [Ho2' Hl2'].
    destruct (in_order_app t1 t2 a Ho1 Ho2') as [Ho Hl].
    exists (t1 ++ t2). rewrite Ht2, Ht1, app_assoc.
    repeat split; [done|lia].
  - simplify_eq. exists t1. repeat split; [done|done|lia].
Qed.

(** A step that calls no service. *)
Ltac paced_leaf :=
  first [ apply paced_ret | apply paced_raise
        | apply paced_emit; reflexivity
        | apply paced_write_file | apply paced_read_file
        | apply paced_os_remove ].

(** Peel the steps that call no service off a sequence. *)
Ltac paced_seq :=
  unfold st_error, st_info, st_write;
  repeat (eapply paced_bind; [paced_leaf | intros ? | lia]).

Ltac paced_end :=
  unfold st_error, st_info, st_write;
  match goal with
  | |- paced ?a ?b _ => apply (paced_weaken a b a a); [lia | lia | paced_leaf]
  end.

Lemma calls_then_error_in_order r t :
  calls_then_error r t ->
  in_order 1 t = true /\ last_stage 1 t = 1%nat.
Proof.
  intros (calls & tail & -> & Hcalls & Htail).
  induction Hcalls as [|e calls He _ IH]; simpl.
  - by destruct Htail as [->|(msg & -> & _)].
  - by destruct e.
Qed.

Lemma paced_transcribe_audio w a fuel audio :
  (a <= 1)%nat -> paced a 1 (transcribe_audio w fuel audio).
Proof.
  intros Ha. apply (paced_weaken a 1 1 1); [done|done|].
  intros s r s' Hrun.
  apply transcribe_audio_transcribes in Hrun as (t & -> & Ht).
  apply transcribes_calls_then_error, calls_then_error_in_order in Ht
    as [Ho Hl].
  exists t. repeat split; [done|lia].
Qed.

Lemma paced_from_file {P : Pydub} a path format :
  paced a a (from_file path format).
Proof.
  unfold from_file. paced_seq. destruct (decode _ _); paced_leaf.
Qed.

Lemma paced_refine w a transcription :
  (a < 2)%nat -> paced a 2 (refine_transcription_with_groq w transcription).
Proof.
  intros Ha. unfold refine_transcription_with_groq.
  apply (paced_try_except a 2 2); [|intros e; paced_seq; paced_leaf|done].
  apply (paced_bind a 2 2); [|intros raw|done].
  { apply paced_service; [done|].
    unfold may_follow. apply orb_true_iff. left. by apply Nat.ltb_lt. }
  paced_seq. unfold model_validate_json.
  apply (paced_bind 2 2 2); [|intros ?; paced_leaf|done].
  destruct (json_loads w raw) as [[| | | | |d]|]; try paced_leaf.
  destruct (assoc _ d) as [[]|]; paced_leaf.
Qed.

Lemma paced_translate_text w a text lang :
  (a < 3)%nat -> paced a 3 (translate_text w text lang).
Proof.
  intros Ha. unfold translate_text.
  apply (paced_try_except a 3 3); [|intros e; paced_seq; paced_leaf|done].
  apply (paced_bind a 3 3); [|intros ?; paced_leaf|done].
  apply paced_service; [done|].
  unfold may_follow. apply orb_true_iff. left. by apply Nat.ltb_lt.
Qed.

Lemma paced_synthesis_stage {P : Pydub} w a text lang :
  (a < 4)%nat -> paced a 4 (synthesis_stage w text lang).
Proof.
  intros Ha. unfold synthesis_stage, text_to_speech, export. paced_seq.
  apply (paced_bind a 4 4); [|intros file|done].
  { apply (paced_bind a 4 4); [|intros ?; paced_leaf|done].
    apply paced_gtts_save.
    unfold may_follow. apply orb_true_iff. left. by apply Nat.ltb_lt. }
  apply (paced_bind 4 4 4); [apply paced_from_file|intros audio|done].
  paced_seq. paced_leaf.
Qed.

Lemma paced_after_translation {P : Pydub} w a translation lang :
  (a < 4)%nat -> paced a 4 (after_translation w translation lang).
Proof.
  intros Ha. unfold after_translation.
  destruct translation as [t|]; [|paced_end].
  destruct (negb _); [by apply paced_synthesis_stage|paced_end].
Qed.

Lemma paced_after_refinement {P : Pydub} w a refined :
  (a < 3)%nat -> paced a 4 (after_refinement w refined).
Proof.
  intros Ha. unfold after_refinement.
  destruct refined as [r|]; [|paced_end].
  paced_seq.
  apply (paced_bind a 3 4); [by apply paced_translate_text| |lia].
  intros translation. apply paced_after_translation. lia.
Qed.

Lemma paced_after_transcription {P : Pydub} w a transcription :
  (a < 2)%nat -> paced a 4 (after_transcription w transcription).
Proof.
  intros Ha. unfold after_transcription.
  destruct (truthy transcription); [|paced_end].
  paced_seq.
  apply (paced_bind a 2 4); [by apply paced_refine| |lia].
  intros refined. apply paced_after_refinement. lia.
Qed.

(** X18. In every run of [main], whatever its outcome, the external
    services are called in stage order: all HTTP calls come first, then at
    most one call to the Groq model, then at most one call to the
    translator, then at most one call to gTTS; no service is called after a
    later one. *)
Theorem main_stages_in_order {P : Pydub} w fuel s r s' :
  main w fuel s = (r, s') ->
  exists t, trace s' = trace s ++ t /\ in_order 0 t = true.
Proof.
  intros Hrun.
  assert (paced 0 4 (main w fuel)) as Hmain.
  { unfold main.
    apply (paced_bind 0 0 4); [|intros audio_data|lia].
    { unfold intake. paced_seq.
      repeat (destruct (_ =? _)); paced_seq; paced_leaf. }
    destruct audio_data as [[|b data]|]; try paced_end.
    paced_seq.
    apply (paced_bind 0 0 4); [|intros processed|lia].
    { unfold preprocess_audio, export. paced_seq.
      apply (paced_bind 0 0 0); [apply paced_from_file|intros audio|done].
      paced_seq. paced_leaf. }
    paced_seq.
    apply (paced_bind 0 1 4); [apply paced_transcribe_audio; lia| |lia].
    intros transcription. apply paced_after_transcription. lia. }
  destruct (Hmain _ _ _ Hrun) as (t & Ht & Ho & _). eauto.
Qed.

Lemma main_stages_in_order_witness :
  exists t,
    trace (main happy_world 5 empty_state).2 = trace empty_state ++ t /\
    in_order 0 t = true.
Proof.
  apply (main_stages_in_order (P := plain_pydub) happy_world 5 empty_state
           _ _ (surjective_pairing _)).
Defined.

(** * A failed stage stops the pipeline *)

Lemma later_stage_mono b c e :
  (b <= c)%nat -> later_stage b e = false -> later_stage c e = false.
Proof.
  unfold later_stage. destruct (stage e) as [n|]; [|done].
  intros Hle H. apply Nat.ltb_ge in H. apply Nat.ltb_ge. lia.
Qed.

Lemma in_order_no_later t a b :
  in_order a t = true -> (last_stage a t <= b)%nat ->
  Forall (fun e => later_stage b e = false) t.
Proof.
  revert a. induction t as [|e t IH]; intros a Ho Hl; [constructor|].
  simpl in Ho, Hl. unfold later_stage at 1. constructor.
  - destruct (stage e) as [n|]; [|done].
    apply andb_true_iff in Ho as [_ Ho]. apply last_stage_ge in Ho.
    apply Nat.ltb_ge. lia.
  - destruct (stage e) as [n|]; [|by eapply IH].
    apply andb_true_iff in Ho as [_ Ho]. by eapply IH.
Qed.

Lemma stops_at_paced {A : Type} a b (m : M A) s r s' :
  paced a b m -> m s = (r, s') -> stops_at b s s'.
Proof.
  intros Hm Hrun. destruct (Hm _ _ _ Hrun) as (t & Ht & Ho & Hl).
  exists t. split; [done|]. by eapply in_order_no_later.
Qed.

Lemma stops_at_logged b s t :
  forallb (fun e => negb (later_stage b e)) t = true ->
  stops_at b s (logged s t).
Proof.
  intros Ht. exists t. split; [done|].
  apply Forall_forall. intros e He.
  rewrite forallb_forall in Ht. apply negb_true_iff, Ht.
  by apply list_elem_of_In.
Qed.

Lemma stops_at_trans b c s s1 s2 :
  (b <= c)%nat -> stops_at b s s1 -> stops_at c s1 s2 -> stops_at c s s2.
Proof.
  intros Hle (t1 & Ht1 & H1) (t2 & Ht2 & H2).
  exists (t1 ++ t2). split; [by rewrite Ht2, Ht1, app_assoc|].
  apply Forall_app. split; [|done].
  eapply Forall_impl; [exact H1|]. intros e. by apply later_stage_mono.
Qed.

Lemma paced_intake w : paced 0 0 (intake w).
Proof.
  unfold intake. paced_seq.
  repeat (destruct (_ =? _)); paced_seq; paced_leaf.
Qed.

Lemma paced_preprocess_audio {P : Pydub} audio_data :
  paced 0 0 (preprocess_audio audio_data).
Proof.
  unfold preprocess_audio, export. paced_seq.
  apply (paced_bind 0 0 0); [apply paced_from_file|intros audio|done].
  paced_seq. paced_leaf.
Qed.

(** The part of a run of [main] that ends with the transcription calls no
    service but the transcription service. *)
Lemma stops_at_transcription {P : Pydub} w fuel s b data s1 p s2 r s3 :
  intake w s = (Ret (Some (b :: data)), s1) ->
  preprocess_audio (b :: data) (log (StInfo "Processing audio...") s1) =
    (Ret p, s2) ->
  transcribe_audio w fuel p (log (StInfo "Transcribing audio...") s2) =
    (r, s3) ->
  stops_at 1 s s3.
Proof.
  intros Hin Hpre Htr.
  apply (stops_at_trans 0 1 s s1); [lia|by eapply stops_at_paced, Hin;
                                           apply paced_intake|].
  apply (stops_at_trans 0 1 s1 (log (StInfo "Processing audio...") s1));
    [lia|by apply (stops_at_logged 0 s1 [_])|].
  apply (stops_at_trans 0 1 _ s2);
    [lia|by eapply stops_at_paced, Hpre; apply paced_preprocess_audio|].
  apply (stops_at_trans 0 1 s2 (log (StInfo "Transcribing audio...") s2));
    [lia|by apply (stops_at_logged 0 s2 [_])|].
  eapply stops_at_paced, Htr. by apply paced_transcribe_audio.
Qed.

Lemma run_emit {A : Type} e (f : unit -> M A) s :
  (emit e ≫= f) s = f tt (log e s).
Proof. reflexivity. Qed.

(** After a truthy transcription the refinement runs, once the headings are
    shown. *)
Lemma after_transcription_truthy {P : Pydub} w v s :
  truthy v = true ->
  after_transcription w v s =
    (refine_transcription_with_groq w v ≫= after_refinement w)
      (logged s (shown_before_refinement v)).
Proof.
  intros Hv. unfold after_transcription. rewrite Hv.
  unfold st_write, st_info. rewrite !run_emit.
  f_equal. log_eq.
Qed.

(** After a refinement that succeeded the translation runs, once the
    refinement is shown. *)
Lemma after_refinement_some {P : Pydub} w r s :
  after_refinement w (Some r) s =
    (translate_text w (refined_transcription r) (st_selectbox w)
       ≫= fun translation =>
            after_translation w translation (st_selectbox w))
      (logged s (shown_before_translation r)).
Proof.
  unfold after_refinement. unfold st_write, st_info. rewrite !run_emit.
  f_equal. log_eq.
Qed.

(** C2. In every run of [main] a stage that returns a failure signal is the
    last stage that runs.  When [transcribe_audio] returns a falsy value,
    [main] ends right after it with the message "Transcription failed." and
    the whole run calls no service but the transcription service.  When the
    refinement returns [None], [main] ends right after it with the message
    "Refinement failed." and the whole run calls neither the translator nor
    gTTS.  When the translation returns [None], [main] ends with the
    translation, whose last event is the error message [translate_text]
    showed, and the whole run does not call gTTS. *)
Theorem C2_failed_stage_stops_pipeline {P : Pydub} w fuel s b data s1 p s2
    v s3 :
  intake w s = (Ret (Some (b :: data)), s1) ->
  preprocess_audio (b :: data) (log (StInfo "Processing audio...") s1) =
    (Ret p, s2) ->
  transcribe_audio w fuel p (log (StInfo "Transcribing audio...") s2) =
    (Ret v, s3) ->
  (truthy v = false ->
     main w fuel s = (Ret tt, log (StError "Transcription failed.") s3) /\
     stops_at 1 s (log (StError "Transcription failed.") s3))
  /\ (forall s4,
        truthy v = true ->
        refine_transcription_with_groq w v
          (logged s3 (shown_before_refinement v)) = (Ret None, s4) ->
        main w fuel s = (Ret tt, log (StError "Refinement failed.") s4) /\
        stops_at 2 s (log (StError "Refinement failed.") s4))
  /\ (forall r s4 s5,
        truthy v = true ->
        refine_transcription_with_groq w v
          (logged s3 (shown_before_refinement v)) = (Ret (Some r), s4) ->
        translate_text w (refined_transcription r) (st_selectbox w)
          (logged s4 (shown_before_translation r)) = (Ret None, s5) ->
        main w fuel s = (Ret tt, s5) /\
        stops_at 3 s s5 /\
        exists e,
          s5 = logged (logged s4 (shown_before_translation r))
                 [EvTranslate (st_selectbox w) (refined_transcription r)
                    (Raises e);
                  StError ("An error occurred during translation: " +:+ e)]).
Proof.
  intros Hin Hpre Htr.
  pose proof (main_after_transcription _ _ _ _ _ _ _ _ _ _ Hin Hpre Htr)
    as Hmain. simpl in Hmain.
  pose proof (stops_at_transcription _ _ _ _ _ _ _ _ _ _ Hin Hpre Htr)
    as Hstop.
  split; [|split].
  - intros Hv. split.
    + rewrite Hmain. unfold after_transcription. by rewrite Hv.
    + apply (stops_at_trans 1 1 s s3); [lia|done|].
      by apply (stops_at_logged 1 s3 [_]).
  - intros s4 Hv Href.
    assert (stops_at 2 s s4) as Hstop4.
    { apply (stops_at_trans 1 2 s s3); [lia|done|].
      apply (stops_at_trans 1 2 s3 (logged s3 (shown_before_refinement v)));
        [lia|by apply stops_at_logged|].
      eapply (stops_at_paced 0); [|exact Href]. apply paced_refine. lia. }
    split.
    + rewrite Hmain, after_transcription_truthy by done.
      by rewrite run_bind, Href.
    + apply (stops_at_trans 2 2 s s4); [lia|done|].
      by apply (stops_at_logged 2 s4 [_]).
  - intros r s4 s5 Hv Href Htrans.
    split; [|split].
    + rewrite Hmain, after_transcription_truthy by done.
      rewrite run_bind, Href, after_refinement_some.
      by rewrite run_bind, Htrans.
    + apply (stops_at_trans 1 3 s s3); [lia|done|].
      apply (stops_at_trans 1 3 s3 (logged s3 (shown_before_refinement v)));
        [lia|by apply stops_at_logged|].
      apply (stops_at_trans 2 3 _ s4);
        [lia|eapply (stops_at_paced 0); [|exact Href]; apply paced_refine; lia|].
      apply (stops_at_trans 2 3 s4 (logged s4 (shown_before_translation r)));
        [lia|by apply stops_at_logged|].
      eapply (stops_at_paced 0); [|exact Htrans].
      apply paced_translate_text. lia.
    + apply translate_text_none in Htrans as (e & _ & ->). by exists e.
Qed.

Lemma C2_witness :
  (exists s3,
     main (upload_world [server_error]) 5 empty_state =
       (Ret tt, log (StError "Transcription failed.") s3) /\
     stops_at 1 empty_state (log (StError "Transcription failed.") s3))
  /\ (exists s4,
        main (upload_world [uploaded; created; completed (VStr "hello")]) 5
          empty_state =
          (Ret tt, log (StError "Refinement failed.") s4) /\
        stops_at 2 empty_state (log (StError "Refinement failed.") s4))
  /\ (exists s5,
        main no_translation_world 5 empty_state = (Ret tt, s5) /\
        stops_at 3 empty_state s5).
Proof.
  split; [|split].
  - edestruct (C2_failed_stage_stops_pipeline (P := plain_pydub)
                 (upload_world [server_error]) 5 empty_state)
      as (H1 & _ & _).
    + vm_compute. reflexivity.
    + vm_compute. reflexivity.
    + vm_compute. reflexivity.
    + eexists. apply H1. reflexivity.
  - edestruct (C2_failed_stage_stops_pipeline (P := plain_pydub)
                 (upload_world [uploaded; created; completed (VStr "hello")])
                 5 empty_state)
      as (_ & H2 & _).
    + vm_compute. reflexivity.
    + vm_compute. reflexivity.
    + vm_compute. reflexivity.
    + eexists. apply H2; [reflexivity|]. vm_compute. reflexivity.
  - edestruct (C2_failed_stage_stops_pipeline (P := plain_pydub)
                 no_translation_world 5 empty_state)
      as (_ & _ & H3).
    + vm_compute. reflexivity.
    + vm_compute. reflexivity.
    + vm_compute. reflexivity.
    + edestruct H3 as (Hmain & Hstop & _).
      * reflexivity.
      * vm_compute. reflexivity.
      * vm_compute. reflexivity.
      * eexists. split; [exact Hmain|exact Hstop].
Defined.
